(** * MacroMeter: the meal-query resolution pipeline of [functions/index.js]

    A shallow embedding of the three functions of the Cloud Function
    ([parseItems], [searchFood] and the exported request handler) and the
    properties of the natural-language specification that are about them.

    Modelling conventions.
    - A JavaScript string is a Rocq [string]; a character stands for the
      UTF-16 code unit of the same number, so the embedding covers the
      code units below 256.
    - A JavaScript number is the exact rational it stands for ([Q]), and
      [Math.round] is [floor (x + 1/2)], wherever a property is about the
      control flow, the requests, the lists and the names, which do not
      depend on how the engine rounds.  The doubles of the engine round,
      overflow and have NaN: what is stated of the totals is stated over
      [Machine], the loop of the handler over an abstract type of numbers
      with the engine's own operations.
    - The object [nutrients = {}] used as a dictionary is a [gmap string Q].
    - [await fetch(...)] and the 300ms timer are effects on an explicit
      [World]: the n-th request issued is answered by [upstream n], and
      every request and pause is recorded in a trace. *)

From Stdlib Require Import Ascii String ZArith QArith Qround.
From stdpp Require Import base list strings gmap.

Local Open Scope string_scope.
Local Open Scope list_scope.

(** ** Characters and the character classes of the two regular expressions *)

Module Chars.

(** [\s], and the characters removed by [String.prototype.trim]: TAB, LF,
    VT, FF, CR, SPACE and NO-BREAK SPACE (the ones below 256). *)
Definition is_ws (c : ascii) : bool :=
  match c with
  | "009" | "010" | "011" | "012" | "013" | " " | "160" => true
  | _ => false
  end%char.

(** The characters [.] does not match: LF and CR. *)
Definition is_line_terminator (c : ascii) : bool :=
  match c with
  | "010" | "013" => true
  | _ => false
  end%char.

(** [\d] *)
Definition is_digit (c : ascii) : bool :=
  match c with
  | "0" | "1" | "2" | "3" | "4" | "5" | "6" | "7" | "8" | "9" => true
  | _ => false
  end%char.

Definition digit_value (c : ascii) : Z :=
  match c with
  | "1" => 1 | "2" => 2 | "3" => 3 | "4" => 4 | "5" => 5
  | "6" => 6 | "7" => 7 | "8" => 8 | "9" => 9 | _ => 0
  end%char%Z.

(** [String.prototype.toLowerCase] on one code unit below 128; the
    letters above are left alone, they never equal ["a"] or ["n"]. *)
Definition to_lower (c : ascii) : ascii :=
  let n := nat_of_ascii c in
  if (65 <=? n)%nat && (n <=? 90)%nat then ascii_of_nat (n + 32) else c.

(** A pattern letter under the [i] flag. *)
Definition eqb_ci (c letter : ascii) : bool := Ascii.eqb (to_lower c) letter.

End Chars.
Import Chars.

(** ** String helpers: [trim], prefixes *)

Fixpoint drop_ws (s : string) : string :=
  match s with
  | String c s' => if is_ws c then drop_ws s' else s
  | EmptyString => EmptyString
  end.

Fixpoint trim_end (s : string) : string :=
  match s with
  | EmptyString => EmptyString
  | String c s' =>
      match trim_end s' with
      | EmptyString => if is_ws c then EmptyString else String c EmptyString
      | t => String c t
      end
  end.

(** [s.trim()] *)
Definition trim (s : string) : string := trim_end (drop_ws s).

(** The longest prefix of digits, and what follows it. *)
Fixpoint span_digits (s : string) : string * string :=
  match s with
  | String c s' =>
      if is_digit c
      then let (d, r) := span_digits s' in (String c d, r)
      else (EmptyString, s)
  | EmptyString => (EmptyString, EmptyString)
  end.

(** What the last group, [.*], captures: everything up to the first line
    terminator. *)
Fixpoint take_line (s : string) : string :=
  match s with
  | String c s' => if is_line_terminator c then EmptyString else String c (take_line s')
  | EmptyString => EmptyString
  end.

Definition starts_with_ws (s : string) : bool :=
  match s with
  | String c _ => is_ws c
  | EmptyString => false
  end.

(** A JavaScript string is truthy when it is not empty. *)
Definition truthy_string (s : string) : bool :=
  match s with
  | EmptyString => false
  | _ => true
  end.

Definition string_to_lower (s : string) : string :=
  string_of_list_ascii (List.map to_lower (list_ascii_of_string s)).

(** ** The Query Segmenter: [parseItems] *)

Record ItemDescriptor := mkItem { qty : Q; text : string }.

(** [/,| and /i] tried at the head of [s]: the length of the separator
    that matches there, if one does. *)
Definition separator_at (s : string) : option nat :=
  match s with
  | String "," _ => Some 1%nat
  | String " " (String a (String n (String d (String " " _)))) =>
      if eqb_ci a "a" && eqb_ci n "n" && eqb_ci d "d" then Some 5%nat else None
  | _ => None
  end.

Definition push_char (c : ascii) (parts : list string) : list string :=
  match parts with
  | p :: ps => String c p :: ps
  | [] => [String c EmptyString]
  end.

(** [query.split(/,| and /i)]: the input is scanned from the left; where
    the separator matches, the fragment read so far is closed and the
    scan resumes after the separator ([skip] counts the characters of a
    matched separator still to pass). *)
Fixpoint split_go (skip : nat) (s : string) : list string :=
  match s with
  | EmptyString => [EmptyString]
  | String c s' =>
      match skip with
      | S k => split_go k s'
      | O =>
          match separator_at s with
          | Some n => EmptyString :: split_go (Nat.pred n) s'
          | None => push_char c (split_go 0 s')
          end
      end
  end.

Definition split_query (query : string) : list string := split_go 0 query.

(** [.map(s => s.trim()).filter(s => s)] *)
Definition fragments (query : string) : list string :=
  List.filter truthy_string (List.map trim (split_query query)).

(** [part.match(re)] for the case-insensitive expression [re] made of
    [^(\d+(\.\d+)?|a|an)\s+] and a third group [.*], returning the
    captures [match[1]] and [match[3]].

    The alternatives are tried in the order written.  [\d+] and [\.\d+]
    are greedy, and giving digits back never helps: the character after a
    shorter run is a digit or the dot, which [\s+] refuses.  [\s+] takes
    the whole run of white space and [.*] the rest of the line; as [.*]
    also matches nothing, the first try of [\s+] succeeds. *)
Definition after_quantity (m1 rest : string) : option (string * string) :=
  if starts_with_ws rest then Some (m1, take_line (drop_ws rest)) else None.

Definition match_quantity (part : string) : option (string * string) :=
  match span_digits part with
  | (String _ _ as d, r) =>
      match r with
      | String "." r' =>
          match span_digits r' with
          | (String _ _ as d2, r2) => after_quantity (d +:+ "." +:+ d2) r2
          | (EmptyString, _) => None
          end
      | _ => after_quantity d r
      end
  | (EmptyString, _) =>
      match part with
      | String a r =>
          if eqb_ci a "a" then
            match after_quantity (String a EmptyString) r with
            | Some m => Some m
            | None =>
                match r with
                | String n r2 =>
                    if eqb_ci n "n"
                    then after_quantity (String a (String n EmptyString)) r2
                    else None
                | EmptyString => None
                end
            end
          else None
      | EmptyString => None
      end
  end.

Fixpoint digits_value (acc : Z) (s : string) : Z :=
  match s with
  | String c s' => digits_value (10 * acc + digit_value c) s'
  | EmptyString => acc
  end.

(** [parseFloat] on the strings it is applied to, the tokens matched by
    [\d+(\.\d+)?]: the value of the decimal numeral, as a reduced
    fraction.  The engine returns the double nearest to this value (zero
    for a numeral below the range of the doubles, Infinity for one above
    it), so only what survives this rounding is stated of a quantity: its
    sign, and its value where the numeral is an integer that a double
    holds. *)
Definition parseFloat (s : string) : Q :=
  let (d, r) := span_digits s in
  match r with
  | String "." r' =>
      let (f, _) := span_digits r' in
      Qred (digits_value 0 (d +:+ f) # Z.to_pos (10 ^ Z.of_nat (String.length f)))
  | _ => inject_Z (digits_value 0 d)
  end.

Definition parse_part (part : string) : ItemDescriptor :=
  match match_quantity part with
  | Some (m1, m3) =>
      let q :=
        if String.eqb (string_to_lower m1) "a" || String.eqb (string_to_lower m1) "an"
        then 1%Q
        else parseFloat m1 in
      mkItem q m3
  | None => mkItem 1%Q part
  end.

Definition parseItems (query : string) : list ItemDescriptor :=
  List.map parse_part (fragments query).


(** ** The Item Resolver: [searchFood] *)

(** *** The upstream JSON, as far as the code reads it *)

(** One element of [food.foodNutrients]; [value] is [None] when the
    property is absent or [null]. *)
Record NutrientEntry := mkEntry { nutrientName : string; value : option Q }.

(** One element of [data.foods]; [foodNutrients] is [None] when the
    property is absent or [null]. *)
Record Food := mkFood { description : string; foodNutrients : option (list NutrientEntry) }.

(** The parsed body of a successful response; [foods] is [None] when the
    property is absent or [null]. *)
Record SearchData := mkData { foods : option (list Food) }.

(** What one pass through the [try] block meets. *)
Inductive FetchOutcome :=
| Threw                       (* [fetch] rejects, or reading the body throws *)
| NotOk (status : nat)        (* a response with [response.ok] false *)
| OkJson (data : SearchData). (* [response.ok], body parsed by [response.json()] *)

(** What [response.json()] makes of the body of a response with
    [response.ok]: nothing when the body is not JSON, [null], or a value
    whose properties can be read. *)
Inductive JsonBody :=
| NotJson
| JsonNull
| JsonValue (data : SearchData).

(** Lines 56 and 57 for such a response: [response.json()] rejects when the
    body does not parse, and the access [data.foods] throws a TypeError
    when [data] is [null]; both land in the [catch] block. *)
Definition read_body (body : JsonBody) : FetchOutcome :=
  match body with
  | NotJson => Threw
  | JsonNull => Threw
  | JsonValue data => OkJson data
  end.

Record NutrientResult := mkResult {
  name : string;
  calories : Q;
  protein : Q;
  carbs : Q;
  fat : Q
}.

(** *** [||] on numbers that may be [undefined] *)

(** A number is truthy when it is not zero; [undefined] and [null] are falsy. *)
Definition truthy (x : option Q) : bool :=
  match x with
  | Some q => negb (Qeq_bool q 0)
  | None => false
  end.

(** [x || y], both possibly [undefined] *)
Definition js_or (x y : option Q) : option Q := if truthy x then x else y.

(** [x || 0] *)
Definition or_zero (x : option Q) : Q :=
  match js_or x (Some 0%Q) with
  | Some q => q
  | None => 0%Q
  end.

(** [for (const n of food.foodNutrients || []) nutrients[n.nutrientName] = n.value || 0] *)
Definition collect_nutrients (entries : list NutrientEntry) : gmap string Q :=
  foldl (λ nutrients n, <[nutrientName n := or_zero (value n)]> nutrients) ∅ entries.

Definition nutrient_list (food : Food) : list NutrientEntry :=
  match foodNutrients food with
  | Some entries => entries
  | None => []
  end.

(** The object literal returned for [foods[0]]. *)
Definition result_of_food (food : Food) : NutrientResult :=
  let nutrients := collect_nutrients (nutrient_list food) in
  {| name := description food;
     calories := or_zero (js_or (nutrients !! "Energy")
                                (nutrients !! "Energy (Atwater General Factors)"));
     protein := or_zero (nutrients !! "Protein");
     carbs := or_zero (nutrients !! "Carbohydrate, by difference");
     fat := or_zero (nutrients !! "Total lipid (fat)") |}.

(** *** The effects: requests and pauses *)

Inductive Event :=
| Request (apiKey itemText : string) (pageSize : nat)
| Pause (ms : nat).

(** [issued] counts the requests sent so far, [trace] lists the effects in
    the order they happened. *)
Record World := mkWorld { issued : nat; trace : list Event }.

Definition start : World := mkWorld 0 [].

Section Resolver.

(** The answer the upstream gives to the n-th request sent (from 0). *)
Variable upstream : nat → FetchOutcome.

(** [await fetch(url.toString())] and the reading of the body *)
Definition fetch (apiKey itemText : string) (w : World) : FetchOutcome * World :=
  (upstream (issued w),
   mkWorld (S (issued w)) (trace w ++ [Request apiKey itemText 5])).

(** [await new Promise(r => setTimeout(r, ms))] *)
Definition sleep (ms : nat) (w : World) : World :=
  mkWorld (issued w) (trace w ++ [Pause ms]).

(** The [for] loop of [searchFood], entered with the loop variable at
    [attempt]; [fuel] bounds the number of iterations, and
    [S retries] of them is all the loop can make. *)
Fixpoint searchFood_loop (fuel : nat) (apiKey itemText : string)
    (retries attempt : nat) (w : World) : option NutrientResult * World :=
  match fuel with
  | O => (None, w)
  | S fuel' =>
      if (attempt <=? retries)%nat then
        let (response, w1) := fetch apiKey itemText w in
        match response with
        | NotOk _ =>
            if (attempt <? retries)%nat
            then searchFood_loop fuel' apiKey itemText retries (S attempt) (sleep 300 w1)
            else (None, w1)
        | OkJson data =>
            match foods data with
            | Some (food :: _) => (Some (result_of_food food), w1)
            | Some [] | None => (None, w1)
            end
        | Threw =>
            if (attempt <? retries)%nat
            then searchFood_loop fuel' apiKey itemText retries (S attempt) (sleep 300 w1)
            else (None, w1)
        end
      else (None, w)
  end.

Definition searchFood (apiKey itemText : string) (retries : nat) (w : World)
  : option NutrientResult * World :=
  searchFood_loop (S retries) apiKey itemText retries 0 w.

End Resolver.

(** The default of the parameter [retries], which the handler relies on. *)
Definition default_retries : nat := 2.


(** ** The Aggregator: the request handler *)

(** [Math.round]: the nearest integer, a half going up. *)
Definition Math_round (x : Q) : Z := Qfloor (x + (1 # 2)).

(** [totalNutrients] *)
Record Totals := mkTotals {
  sum_calories : Q;
  sum_protein : Q;
  sum_carbs : Q;
  sum_fat : Q
}.

(** The three variables the loop over the items updates. *)
Record Tally := mkTally {
  totalNutrients : Totals;
  foundItems : list string;
  notFoundItems : list string
}.

Definition empty_tally : Tally := mkTally (mkTotals 0 0 0 0) [] [].

(** The body of the success response. *)
Module Outcome.
Record body := mk {
  name : string;
  calories : Z;
  protein : Z;
  carbs : Z;
  fat : Z;
  partial : bool;
  missing : list string
}.
End Outcome.

(** The two JSON objects the handler answers a well-formed request with:
    [{ found: false, error }] and [{ found: true, name, calories, protein,
    carbs, fat, partial, missing }]. *)
Inductive AggregateOutcome :=
| NoResults (error : string)
| Found (body : Outcome.body).

Definition found (o : AggregateOutcome) : bool :=
  match o with
  | NoResults _ => false
  | Found _ => true
  end.

(** Reading a property of the success body off an outcome: [None] stands
    for [undefined], the property is not there. *)
Definition get {A : Type} (field : Outcome.body → A) (o : AggregateOutcome) : option A :=
  match o with
  | NoResults _ => None
  | Found b => Some (field b)
  end.

(** [list.join(sep)] *)
Fixpoint join (sep : string) (l : list string) : string :=
  match l with
  | [] => ""
  | [x] => x
  | x :: rest => x +:+ sep +:+ join sep rest
  end.

Section Aggregator.

(** The resolver capability, a computation on some state, and the
    conversion of a number to a string done by the template literal. *)
Context {St : Type}.
Variable resolve : string → St → option NutrientResult * St.
Variable number_to_string : Q → string.

(** One iteration of [for (const item of items)].  The running totals are
    exact sums here; which items are found, in which order, and what is
    asked upstream does not depend on them, and this is what is stated of
    this loop.  The totals themselves are stated of [Machine.visit]. *)
Definition visit (item : ItemDescriptor) (t : Tally) (st : St) : Tally * St :=
  let (result, st') := resolve (text item) st in
  match result with
  | Some r =>
      let n := totalNutrients t in
      (mkTally
         (mkTotals (sum_calories n + calories r * qty item)
                   (sum_protein n + protein r * qty item)
                   (sum_carbs n + carbs r * qty item)
                   (sum_fat n + fat r * qty item))
         (foundItems t ++ [number_to_string (qty item) +:+ " x " +:+ name r])
         (notFoundItems t),
       st')
  | None =>
      (mkTally (totalNutrients t) (foundItems t) (notFoundItems t ++ [text item]), st')
  end.

Fixpoint visit_all (items : list ItemDescriptor) (t : Tally) (st : St) : Tally * St :=
  match items with
  | [] => (t, st)
  | item :: rest => let (t', st') := visit item t st in visit_all rest t' st'
  end.

(** What the handler answers once the tally is complete. *)
Definition answer (rawQuery : string) (t : Tally) : AggregateOutcome :=
  match foundItems t with
  | [] => NoResults ("No results for '" +:+ rawQuery +:+ "'")
  | _ :: _ =>
      Found (Outcome.mk
               (join ", " (foundItems t))
               (Math_round (sum_calories (totalNutrients t)))
               (Math_round (sum_protein (totalNutrients t)))
               (Math_round (sum_carbs (totalNutrients t)))
               (Math_round (sum_fat (totalNutrients t)))
               (negb (Nat.eqb (length (notFoundItems t)) 0))
               (notFoundItems t))
  end.

(** The handler from [parseItems(rawQuery)] on. *)
Definition aggregate (rawQuery : string) (st : St) : AggregateOutcome * St :=
  let items := parseItems rawQuery in
  let (t, st') := visit_all items empty_tally st in
  (answer rawQuery t, st').

(** *** What the items resolve to *)

(** Each item with the outcome of its resolution, the resolver being
    called on the items in order. *)
Fixpoint outcomes (items : list ItemDescriptor) (st : St)
  : list (ItemDescriptor * option NutrientResult) :=
  match items with
  | [] => []
  | item :: rest =>
      let (result, st') := resolve (text item) st in
      (item, result) :: outcomes rest st'
  end.

End Aggregator.

(** The items that resolved, with their results, in order. *)
Definition resolved (os : list (ItemDescriptor * option NutrientResult))
  : list (ItemDescriptor * NutrientResult) :=
  omap (λ o, match snd o with Some r => Some (fst o, r) | None => None end) os.

(** The texts of the items that did not resolve, in order. *)
Definition unresolved (os : list (ItemDescriptor * option NutrientResult)) : list string :=
  omap (λ o, match snd o with Some _ => None | None => Some (text (fst o)) end) os.

(** The sum over the resolved items of quantity times a per-unit field. *)
Definition weighted_sum (field : NutrientResult → Q)
    (rs : list (ItemDescriptor * NutrientResult)) : Q :=
  foldr (λ ir acc, qty (fst ir) * field (snd ir) + acc)%Q 0%Q rs.

(** *** The exported function *)

(** A value of [req.query.query] or [req.body.query], as far as the
    handler tells them apart. *)
Inductive Param :=
| Missing                     (* [undefined], or another falsy value that is not a string *)
| Text (s : string)           (* a string; the empty one is falsy *)
| NotText (message : string). (* a truthy value that is not a string: the array
                                 of a repeated parameter, an object, a number;
                                 it has no [split] method, and [message] is the
                                 message of the TypeError that calling it raises *)

(** The request, as far as the handler reads it: [req.query.query] and
    [req.body.query], [req.query] and [req.body] being the objects the
    framework makes of the query string and of the body. *)
Record HttpRequest := mkRequest { query_query : Param; body_query : Param }.

Definition truthy_param (p : Param) : bool :=
  match p with
  | Text (String _ _) | NotText _ => true
  | Text EmptyString | Missing => false
  end.

(** [a || b] on two parameters *)
Definition param_or (a b : Param) : Param := if truthy_param a then a else b.

Inductive HttpResponse :=
| Status (code : nat) (error : string)
| Json (o : AggregateOutcome).

(** [a || b] on strings that may be [undefined]; [None] when both are falsy. *)
Definition first_truthy (a b : option string) : option string :=
  match a with
  | Some (String _ _) => a
  | _ => match b with
         | Some (String _ _) => b
         | _ => None
         end
  end.

(** The exported function.  The only statement of its [try] block that
    can throw is [parseItems(rawQuery)], for a [rawQuery] that is not a
    string; the [catch] block then answers 500 with the message of the
    error. *)
Definition handler (upstream : nat → FetchOutcome) (number_to_string : Q → string)
    (USDA_API_KEY : option string) (req : HttpRequest) (w : World)
  : HttpResponse * World :=
  let rawQuery := param_or (query_query req) (body_query req) in
  if negb (truthy_param rawQuery) then (Status 400 "Missing 'query' parameter", w)
  else
    match first_truthy USDA_API_KEY None with
    | None => (Status 500 "USDA API key not configured", w)
    | Some apiKey =>
        match rawQuery with
        | Text rawQuery =>
            let (o, w') :=
              aggregate (λ itemText, searchFood upstream apiKey itemText default_retries)
                        number_to_string rawQuery w in
            (Json o, w')
        | NotText message => (Status 500 message, w)
        | Missing => (Status 400 "Missing 'query' parameter", w)
        end
    end.

(** ** The loop of the handler over the numbers of the engine

    Lines 113 to 148 once more, with nothing assumed of the numbers.
    [num] stands for the JavaScript numbers (the doubles, with their
    rounding, their infinities and NaN), [zero] for the literal 0, and
    [add], [mul] and [round] for what the engine computes for [+], [*] and
    [Math.round].  The items are given, as [parseItems] returned them.
    What is proved of this loop holds of the handler whatever the
    arithmetic of the engine is. *)

Module Machine.
Section Loop.

Context {num St : Type}.
Variable zero : num.
Variables add mul : num → num → num.
Variable round : num → num.
Variable number_to_string : num → string.

Record Item := mkItem { qty : num; text : string }.

Record Result := mkResult {
  name : string;
  calories : num;
  protein : num;
  carbs : num;
  fat : num
}.

(** [totalNutrients] *)
Record Totals := mkTotals {
  sum_calories : num;
  sum_protein : num;
  sum_carbs : num;
  sum_fat : num
}.

Record Tally := mkTally {
  totalNutrients : Totals;
  foundItems : list string;
  notFoundItems : list string
}.

Definition empty_tally : Tally := mkTally (mkTotals zero zero zero zero) [] [].

(** The body of the success response. *)
Record Body := mkBody {
  out_name : string;
  out_calories : num;
  out_protein : num;
  out_carbs : num;
  out_fat : num;
  partial : bool;
  missing : list string
}.

Inductive Outcome :=
| NoResults (error : string)
| Found (body : Body).

Variable resolve : string → St → option Result * St.

(** One iteration of [for (const item of items)]. *)
Definition visit (item : Item) (t : Tally) (st : St) : Tally * St :=
  let (result, st') := resolve (text item) st in
  match result with
  | Some r =>
      let n := totalNutrients t in
      (mkTally
         (mkTotals (add (sum_calories n) (mul (calories r) (qty item)))
                   (add (sum_protein n) (mul (protein r) (qty item)))
                   (add (sum_carbs n) (mul (carbs r) (qty item)))
                   (add (sum_fat n) (mul (fat r) (qty item))))
         (foundItems t ++ [number_to_string (qty item) +:+ " x " +:+ name r])
         (notFoundItems t),
       st')
  | None =>
      (mkTally (totalNutrients t) (foundItems t) (notFoundItems t ++ [text item]), st')
  end.

Fixpoint visit_all (items : list Item) (t : Tally) (st : St) : Tally * St :=
  match items with
  | [] => (t, st)
  | item :: rest => let (t', st') := visit item t st in visit_all rest t' st'
  end.

(** What the handler answers once the tally is complete. *)
Definition answer (rawQuery : string) (t : Tally) : Outcome :=
  match foundItems t with
  | [] => NoResults ("No results for '" +:+ rawQuery +:+ "'")
  | _ :: _ =>
      Found (mkBody (join ", " (foundItems t))
                    (round (sum_calories (totalNutrients t)))
                    (round (sum_protein (totalNutrients t)))
                    (round (sum_carbs (totalNutrients t)))
                    (round (sum_fat (totalNutrients t)))
                    (negb (Nat.eqb (length (notFoundItems t)) 0))
                    (notFoundItems t))
  end.

(** The handler from line 113 on, [items] being [parseItems(rawQuery)]. *)
Definition aggregate (rawQuery : string) (items : list Item) (st : St) : Outcome * St :=
  let (t, st') := visit_all items empty_tally st in
  (answer rawQuery t, st').

(** Each item with the outcome of its resolution, the resolver being
    called on the items in order. *)
Fixpoint outcomes (items : list Item) (st : St) : list (Item * option Result) :=
  match items with
  | [] => []
  | item :: rest =>
      let (result, st') := resolve (text item) st in
      (item, result) :: outcomes rest st'
  end.

(** The items that resolved, with their results, in order. *)
Definition resolved (os : list (Item * option Result)) : list (Item * Result) :=
  omap (λ o, match snd o with Some r => Some (fst o, r) | None => None end) os.

(** The sum, computed by the engine from [acc] on and in the order of the
    list, of per-unit field times quantity over resolved items. *)
Definition sum_from (field : Result → num) (acc : num) (rs : list (Item * Result)) : num :=
  foldl (λ acc ir, add acc (mul (field (snd ir)) (qty (fst ir)))) acc rs.

(** The same sum with every contribution rounded before it is added: what
    the handler does not compute. *)
Definition rounded_sum_from (field : Result → num) (acc : num) (rs : list (Item * Result))
  : num :=
  foldl (λ acc ir, add acc (round (mul (field (snd ir)) (qty (fst ir))))) acc rs.

End Loop.
End Machine.

(** * The vocabulary of the properties

    Definitions the statements below use and the source does not have:
    what the dictionary records for a name, the shape of the trace after
    retried attempts, and sample foods, upstreams and resolvers for the
    concrete cases. *)

(** All the characters of [s] are white space. *)
Fixpoint blank (s : string) : bool :=
  match s with
  | String c s' => is_ws c && blank s'
  | EmptyString => true
  end.

(** A transient failure: a thrown error or a response that is not ok. *)
Definition failed (o : FetchOutcome) : bool :=
  match o with
  | Threw | NotOk _ => true
  | OkJson _ => false
  end.

(** The effects of [k] failed attempts that are retried: a request and
    the 300ms pause, [k] times. *)
Fixpoint retry_trace (apiKey itemText : string) (k : nat) : list Event :=
  match k with
  | O => []
  | S k' => Request apiKey itemText 5 :: Pause 300 :: retry_trace apiKey itemText k'
  end.

(** The world after [k] retried attempts and one more request. *)
Definition after_attempts (apiKey itemText : string) (k : nat) (w : World) : World :=
  mkWorld (issued w + S k)
          (trace w ++ retry_trace apiKey itemText k ++ [Request apiKey itemText 5]).

(** The upstream [f] with the answer to request [n] replaced by [o]. *)
Definition override (f : nat → FetchOutcome) (n : nat) (o : FetchOutcome)
  : nat → FetchOutcome :=
  λ m, if (m =? n)%nat then o else f m.

(** What a successful response resolves to. *)
Definition result_of_data (data : SearchData) : option NutrientResult :=
  match foods data with
  | Some (food :: _) => Some (result_of_food food)
  | Some [] | None => None
  end.

(** The entry [n] has the nutrient name [key]. *)
Definition named (key : string) (n : NutrientEntry) : bool :=
  String.eqb (nutrientName n) key.

(** The value recorded for a nutrient name: that of the last entry with
    this name ([0] when the entry has none), [None] when no entry has
    the name. *)
Definition stored (key : string) (entries : list NutrientEntry) : option Q :=
  (λ n, or_zero (value n)) <$> last (List.filter (named key) entries).

(** A field of the result read off what is recorded for its nutrient
    name: the recorded value, and zero when nothing is recorded. *)
Definition field_from (recorded : option Q) (field : Q) : Prop :=
  match recorded with
  | Some v => (field == v)%Q
  | None => field = 0%Q
  end.

(** The description pushed on [foundItems] for a resolved item. *)
Definition found_label (number_to_string : Q → string)
    (ir : ItemDescriptor * NutrientResult) : string :=
  number_to_string (qty (fst ir)) +:+ " x " +:+ name (snd ir).

(** ** Sample foods *)

Definition egg : Food :=
  mkFood "Egg, whole, raw"
         (Some [mkEntry "Protein" (Some (126 # 10));
                mkEntry "Total lipid (fat)" (Some (95 # 10));
                mkEntry "Carbohydrate, by difference" (Some (7 # 10));
                mkEntry "Energy" (Some (143 # 1))]).

(** A food whose energy is recorded as zero under the first label. *)
Definition diet_soda : Food :=
  mkFood "Soda, diet"
         (Some [mkEntry "Energy" (Some 0%Q);
                mkEntry "Energy (Atwater General Factors)" (Some (2 # 1))]).

(** A food with two entries for protein. *)
Definition tofu : Food :=
  mkFood "Tofu"
         (Some [mkEntry "Protein" (Some (8 # 1));
                mkEntry "Energy" (Some (76 # 1));
                mkEntry "Protein" (Some (81 # 10))]).

(** A food whose energy is recorded twice under the first label, the
    second time as zero, and once under the second label. *)
Definition broth : Food :=
  mkFood "Broth"
         (Some [mkEntry "Energy" (Some (5 # 1));
                mkEntry "Energy (Atwater General Factors)" (Some (7 # 1));
                mkEntry "Energy" (Some 0%Q)]).

(** ** Sample upstreams and resolvers *)

Definition egg_found : FetchOutcome := OkJson (mkData (Some [egg])).

(** Every request is answered with status 200 and the body [null]. *)
Definition always_null : nat → FetchOutcome := λ _, read_body JsonNull.

(** Every request meets a network error. *)
Definition always_threw : nat → FetchOutcome := λ _, Threw.

(** The first request gets a 503, the later ones the answer [o]. *)
Definition error_then (o : FetchOutcome) : nat → FetchOutcome :=
  λ n, match n with O => NotOk 503 | _ => o end.

(** No candidate for anything. *)
Definition nothing_found : nat → FetchOutcome := λ _, OkJson (mkData (Some [])).

(** The egg for the first request, no candidate for the later ones. *)
Definition eggs_only : nat → FetchOutcome :=
  λ n, match n with O => egg_found | _ => OkJson (mkData (Some [])) end.

(** The resolver as the handler calls it. *)
Definition resolve_with (upstream : nat → FetchOutcome)
  : string → World → option NutrientResult * World :=
  λ itemText, searchFood upstream "key" itemText default_retries.

(** A stand-in for the conversion of a number to a string, which no
    property below depends on. *)
Definition plain_number : Q → string := λ _, "n".

(** [Math.round] as a function from numbers to numbers, on the rationals:
    an instance of the engine's numbers for the examples. *)
Definition Q_round (x : Q) : Q := inject_Z (Math_round x).

(** Splits a conjunction into its conjuncts, and nothing else. *)
Ltac conjuncts := repeat match goal with |- _ ∧ _ => split end.

(** ** The trace of a whole request *)

(** The effects of resolving [items] in order, the i-th item being retried
    [ks !! i] times before its last request. *)
Fixpoint item_blocks (apiKey : string) (items : list ItemDescriptor) (ks : list nat)
  : list Event :=
  match items, ks with
  | item :: items', k :: ks' =>
      retry_trace apiKey (text item) k ++ [Request apiKey (text item) 5]
      ++ item_blocks apiKey items' ks'
  | _, _ => []
  end.

(** The nutrient names the result is built from. *)
Definition consumed (n : NutrientEntry) : bool :=
  named "Energy" n || named "Energy (Atwater General Factors)" n ||
  named "Protein" n || named "Carbohydrate, by difference" n ||
  named "Total lipid (fat)" n.

(** The character [c] occurs in [s]. *)
Fixpoint occurs (c : ascii) (s : string) : bool :=
  match s with
  | String a s' => Ascii.eqb a c || occurs c s'
  | EmptyString => false
  end.

(** All the characters of [s] are digits. *)
Fixpoint all_digits (s : string) : bool :=
  match s with
  | String c s' => is_digit c && all_digits s'
  | EmptyString => true
  end.

(** A text as the Segmenter returns it unchanged: it starts with a
    character that is not white space and has no line terminator. *)
Definition plain_text (t : string) : Prop :=
  (∃ c t', t = String c t' ∧ is_ws c = false) ∧
  occurs "010" t = false ∧ occurs "013" t = false.

(** * The web client (the application script that calls the function)

    The script keeps one [state] object, mirrors parts of it in
    [localStorage] and reads the clock.  Modelling conventions.
    - The nutrient amounts of a meal and of a goal are integers (they come
      from [Math.round] and [parseInt]).
    - [localStorage] holds, under the key [macrometerState] and under the
      keys [meals_<date>], the values the script serialises there; the
      store is modelled by these values, a [gmap] from the date for the
      second kind of key.
    - The clock is read through [getToday()], [Date.now()] and
      [toLocaleTimeString], whose results are the fields of [Env]; it does
      not tick during one event handler.
    - [showToast] is modelled by the last message shown; the rendering
      functions ([updateUI] and the ones it calls) change nothing of the
      state and are left out. *)

Module Client.

(** The four amounts: of a meal, of a day's totals, of the goals. *)
Record Quad := mkQuad { calories : Z; protein : Z; carbs : Z; fat : Z }.

(** [state.pendingMeal]: a name and the four amounts. *)
Record Pending := mkPending { name : string; amounts : Quad }.

(** An element of [state.meals] or [state.favorites]: the pending meal it
    was made from, an [id], and for a meal the [time] it was logged. *)
Record Meal := mkMeal { item : Pending; id : Z; time : option string }.

(** An element of [state.history]: the date, that day's totals and the
    goals of that day. *)
Record Day := mkDay { date : string; totals : Quad; goals_then : Quad }.

(** The value stored under [macrometerState]. *)
Record Saved := mkSaved {
  saved_goals : Quad;
  saved_favorites : list Meal;
  saved_history : list Day
}.

Record App := mkApp {
  goals : Quad;
  meals : list Meal;
  favorites : list Meal;
  history : list Day;
  pendingMeal : option Pending;
  mealInput : string;               (* [elements.mealInput.value] *)
  toast : option (string * string); (* the last message shown and its type *)
  macrometerState : option Saved;   (* [localStorage], first key *)
  meals_on : gmap string (list Meal) (* [localStorage], keys [meals_<date>] *)
}.

Record Env := mkEnv { today : string; now : Z; timeString : string }.

Definition set_meals (ms : list Meal) (a : App) : App :=
  mkApp (goals a) ms (favorites a) (history a) (pendingMeal a) (mealInput a)
        (toast a) (macrometerState a) (meals_on a).


Definition set_history (h : list Day) (a : App) : App :=
  mkApp (goals a) (meals a) (favorites a) h (pendingMeal a) (mealInput a)
        (toast a) (macrometerState a) (meals_on a).

Definition set_goals (g : Quad) (a : App) : App :=
  mkApp g (meals a) (favorites a) (history a) (pendingMeal a) (mealInput a)
        (toast a) (macrometerState a) (meals_on a).

Definition set_pendingMeal (p : option Pending) (a : App) : App :=
  mkApp (goals a) (meals a) (favorites a) (history a) p (mealInput a)
        (toast a) (macrometerState a) (meals_on a).

Definition set_mealInput (s : string) (a : App) : App :=
  mkApp (goals a) (meals a) (favorites a) (history a) (pendingMeal a) s
        (toast a) (macrometerState a) (meals_on a).

(** [showToast(message, type)] *)
Definition showToast (message type : string) (a : App) : App :=
  mkApp (goals a) (meals a) (favorites a) (history a) (pendingMeal a) (mealInput a)
        (Some (message, type)) (macrometerState a) (meals_on a).

(** [saveState()] *)
Definition saveState (a : App) : App :=
  mkApp (goals a) (meals a) (favorites a) (history a) (pendingMeal a) (mealInput a)
        (toast a) (Some (mkSaved (goals a) (favorites a) (history a))) (meals_on a).

(** [saveTodayMeals()] *)
Definition saveTodayMeals (e : Env) (a : App) : App :=
  mkApp (goals a) (meals a) (favorites a) (history a) (pendingMeal a) (mealInput a)
        (toast a) (macrometerState a) (<[today e := meals a]> (meals_on a)).

(** [calculateTotals()]: the [reduce] over [state.meals]. *)
Definition calculateTotals (a : App) : Quad :=
  foldl (λ acc meal,
           mkQuad (calories acc + calories (amounts (item meal)))
                  (protein acc + protein (amounts (item meal)))
                  (carbs acc + carbs (amounts (item meal)))
                  (fat acc + fat (amounts (item meal))))%Z
        (mkQuad 0 0 0 0) (meals a).

(** [saveToHistory()] *)
Definition saveToHistory (e : Env) (a : App) : App :=
  let entry := mkDay (today e) (calculateTotals a) (goals a) in
  let updated :=
    match list_find (λ h, date h = today e) (history a) with
    | Some (existingIndex, _) => <[existingIndex := entry]> (history a)
    | None => entry :: history a
    end in
  saveState (set_history (take 30 updated) a).

(** [hidePendingMeal()] *)
Definition hidePendingMeal (a : App) : App := set_pendingMeal None a.

(** [addMeal()] *)
Definition addMeal (e : Env) (a : App) : App :=
  match pendingMeal a with
  | None => a
  | Some pending =>
      let meal := mkMeal pending (now e) (Some (timeString e)) in
      let a1 := set_meals (meals a ++ [meal]) a in
      let a2 := saveToHistory e (saveTodayMeals e a1) in
      let a3 := hidePendingMeal (set_mealInput "" a2) in
      showToast ("Added: " +:+ name (item meal)) "success" a3
  end.

Section Favorites.

(** [String.prototype.toLowerCase] *)
Variable toLowerCase : string → string.


End Favorites.

(** [cancelPending()] *)
Definition cancelPending (a : App) : App := set_mealInput "" (hidePendingMeal a).

(** [removeMeal(id)] *)
Definition removeMeal (e : Env) (i : Z) (a : App) : App :=
  let a1 := set_meals (List.filter (λ m, negb (id m =? i)%Z) (meals a)) a in
  showToast "Meal removed" "success" (saveToHistory e (saveTodayMeals e a1)).

(** [addFavoriteToMeals(id)] *)
Definition addFavoriteToMeals (e : Env) (i : Z) (a : App) : App :=
  match List.find (λ f, (id f =? i)%Z) (favorites a) with
  | None => a
  | Some fav =>
      let meal := mkMeal (item fav) (now e) (Some (timeString e)) in
      let a1 := set_meals (meals a ++ [meal]) a in
      showToast ("Added: " +:+ name (item meal)) "success"
                (saveToHistory e (saveTodayMeals e a1))
  end.


(** [clearMeals()], [confirmed] being the answer to the dialog. *)
Definition clearMeals (e : Env) (confirmed : bool) (a : App) : App :=
  if confirmed
  then showToast "Meals cleared" "success" (saveTodayMeals e (set_meals [] a))
  else a.

(** [clearHistory()], [confirmed] being the answer to the dialog. *)
Definition clearHistory (confirmed : bool) (a : App) : App :=
  if confirmed
  then showToast "History cleared" "success" (saveState (set_history [] a))
  else a.


End Client.


(** ** The vocabulary of the client's properties *)


Definition quad_zero : Client.Quad := Client.mkQuad 0 0 0 0.


(** The history has an entry for today, and the first such entry holds the
    totals of the meals of the state and its goals. *)
Definition history_current (e : Client.Env) (a : Client.App) : Prop :=
  ∃ i, list_find (λ h, Client.date h = Client.today e) (Client.history a) =
       Some (i, Client.mkDay (Client.today e) (Client.calculateTotals a) (Client.goals a)).

(** What [localStorage] holds is what the state holds: today's meals, and
    the goals, favorites and history. *)
Definition stored_current (e : Client.Env) (a : Client.App) : Prop :=
  Client.meals_on a !! Client.today e = Some (Client.meals a) ∧
  Client.macrometerState a =
  Some (Client.mkSaved (Client.goals a) (Client.favorites a) (Client.history a)).

(** A sample state: one meal logged, the same meal pending. *)
Definition toast_meal : Client.Pending :=
  Client.mkPending "toast" (Client.mkQuad 75 3 13 1).

Definition morning : Client.Env := Client.mkEnv "2026-01-13" 1000 "8:05 AM".

Definition sample_app : Client.App :=
  Client.mkApp (Client.mkQuad 2000 150 250 65)
               [Client.mkMeal toast_meal 7 (Some "7:30 AM")]
               [] [] (Some toast_meal) "toast" None None ∅.


(** * Properties *)

(** ** Strings *)

Lemma line_terminator_is_ws c : is_line_terminator c = true → is_ws c = true.
Proof.
  unfold is_line_terminator, is_ws.
  destruct c as [[] [] [] [] [] [] [] []]; simpl; congruence.
Qed.

Lemma trim_end_idem s : trim_end (trim_end s) = trim_end s.
Proof.
  induction s as [|c s IH]; simpl; [done|].
  destruct (trim_end s) as [|a t] eqn:E.
  - destruct (is_ws c) eqn:W; simpl; [done|]. by rewrite W.
  - simpl in *. by rewrite IH.
Qed.

Lemma trim_end_tail c s :
  trim_end (String c s) = String c s → s ≠ "" → trim_end s = s.
Proof.
  simpl. intros H Hs. destruct (trim_end s) as [|a t] eqn:E.
  - destruct (is_ws c); inversion H; congruence.
  - by inversion H.
Qed.

Lemma trim_end_single c : trim_end (String c "") = String c "" → is_ws c = false.
Proof. simpl. by destruct (is_ws c). Qed.

Lemma trim_end_suffix a b :
  trim_end (a +:+ b) = a +:+ b → b ≠ "" → trim_end b = b.
Proof.
  induction a as [|c a IH]; intros H Hb; [done|].
  apply IH; [|done].
  change (String c a +:+ b) with (String c (a +:+ b)) in H.
  apply trim_end_tail in H; [done|].
  destruct a; [done|discriminate].
Qed.

Lemma drop_ws_trimmed s : trim_end s = s → s ≠ "" → drop_ws s ≠ "".
Proof.
  induction s as [|c s IH]; intros H Hs; [done|].
  simpl. destruct (is_ws c) eqn:W; [|done].
  destruct s as [|a s]; [apply trim_end_single in H; congruence|].
  apply IH; [|done]. by apply trim_end_tail in H.
Qed.

Lemma drop_ws_head s c t : drop_ws s = String c t → is_ws c = false.
Proof.
  induction s as [|a s IH]; simpl; [done|].
  destruct (is_ws a) eqn:W; [done|]. intros [= -> _]. done.
Qed.

Lemma span_digits_app s d r : span_digits s = (d, r) → s = d +:+ r.
Proof.
  revert d r. induction s as [|c s IH]; simpl; intros d r H.
  - by inversion H.
  - destruct (is_digit c).
    + destruct (span_digits s) as [d' r'] eqn:E. inversion H; subst.
      change (String c d' +:+ r) with (String c (d' +:+ r)). f_equal. by apply IH.
    + by inversion H.
Qed.

Lemma blank_drop_ws s : blank s = true ↔ drop_ws s = "".
Proof.
  induction s as [|c s IH]; simpl; [done|].
  destruct (is_ws c); simpl; [done|]. split; discriminate.
Qed.

Lemma blank_trim_end s : blank s = true ↔ trim_end s = "".
Proof.
  induction s as [|c s IH]; simpl; [done|].
  destruct (trim_end s) as [|a t] eqn:E.
  - destruct (is_ws c); simpl.
    + split; [done|]. intros _. by apply IH.
    + split; discriminate.
  - split; [|discriminate]. intros [_ H]%andb_prop. apply IH in H. discriminate.
Qed.

Lemma blank_drop_ws_same s : blank (drop_ws s) = blank s.
Proof.
  induction s as [|c s IH]; simpl; [done|].
  destruct (is_ws c) eqn:W; simpl; [done|]. by rewrite W.
Qed.

Lemma blank_trim s : blank s = true ↔ trim s = "".
Proof. unfold trim. by rewrite <- blank_trim_end, blank_drop_ws_same. Qed.

Lemma truthy_string_spec s : truthy_string s = true ↔ s ≠ "".
Proof. destruct s; simpl; split; congruence. Qed.

(** ** The Query Segmenter *)

Lemma fragments_spec query part :
  In part (fragments query) ↔
  part ≠ "" ∧ ∃ f, In f (split_query query) ∧ part = trim f.
Proof.
  unfold fragments. rewrite filter_In, in_map_iff, truthy_string_spec.
  split.
  - intros [(f & <- & Hf) Hne]. eauto.
  - intros [Hne (f & Hf & ->)]. eauto.
Qed.

Lemma fragments_trimmed query part :
  In part (fragments query) → part ≠ "" ∧ trim_end part = part.
Proof.
  intros [Hne (f & _ & ->)]%fragments_spec. split; [done|].
  unfold trim. apply trim_end_idem.
Qed.


Lemma after_quantity_rest m1 rest m : after_quantity m1 rest = Some m → rest ≠ "".
Proof. by destruct rest. Qed.







(** The separator is found in any case, without overlap; a numeral needs
    digits on both sides of its dot, and white space after it. *)
Example split_query_overlap : split_query "x and and y AND " = ["x"; "and y"; ""].
Proof. reflexivity. Qed.

Example parseItems_quantities :
  parseItems "1.5 cups rice, An apple AND 007 bonds" =
  [mkItem (3 # 2) "cups rice"; mkItem 1 "apple"; mkItem 7 "bonds"].
Proof. reflexivity. Qed.

Example parseItems_no_quantity :
  parseItems "3.x y, 2. w, 12oz steak, a" =
  [mkItem 1 "3.x y"; mkItem 1 "2. w"; mkItem 1 "12oz steak"; mkItem 1 "a"].
Proof. reflexivity. Qed.

(** C4: segmenting "2 eggs and a banana" gives the two descriptors
    (2, "eggs") and (1, "banana"), in this order, and segmenting
    "chicken breast with rice", which has no separator, gives the single
    descriptor with quantity 1 and the whole input as its text. *)
Theorem parseItems_examples :
  parseItems "2 eggs and a banana" = [mkItem 2 "eggs"; mkItem 1 "banana"] ∧
  parseItems "chicken breast with rice" = [mkItem 1 "chicken breast with rice"].
Proof. split; vm_compute; reflexivity. Qed.

(** C6, as stated, fails: the input "," is not empty, its two fragments
    are, and the Segmenter returns the empty sequence. *)
Lemma parseItems_separator_only : "," ≠ "" ∧ parseItems "," = [].
Proof. split; [discriminate | reflexivity]. Qed.

(** C6, amended: the Segmenter produces a non-empty sequence exactly for
    the inputs in which some fragment between the separators has a
    character that is not white space. *)
Theorem parseItems_nonempty_iff (query : string) :
  parseItems query ≠ [] ↔ ∃ f, In f (split_query query) ∧ blank f = false.
Proof.
  unfold parseItems. split.
  - intros H. destruct (fragments query) as [|part rest] eqn:E; [done|].
    assert (In part (fragments query)) as Hin by (rewrite E; by left).
    apply fragments_spec in Hin as [Hne (f & Hf & ->)].
    exists f. split; [done|].
    destruct (blank f) eqn:B; [|done]. by apply blank_trim in B.
  - intros (f & Hf & B).
    assert (In (trim f) (fragments query)) as Hin.
    { apply fragments_spec. split; [|eauto].
      intros T. apply blank_trim in T. congruence. }
    destruct (fragments query); [done|discriminate].
Qed.

Lemma parseItems_nonempty_iff_witness : parseItems "eggs, " ≠ [].
Proof.
  apply (proj2 (parseItems_nonempty_iff "eggs, ")).
  exists "eggs". split; [left; reflexivity | reflexivity].
Defined.




(** ** The Item Resolver *)

Section ResolverFacts.

Variable upstream : nat → FetchOutcome.
Variables apiKey itemText : string.
Variable retries : nat.

Local Abbreviation loop := (searchFood_loop upstream).

Lemma loop_retry fuel attempt w :
  failed (upstream (issued w)) = true →
  (attempt < retries)%nat →
  loop (S fuel) apiKey itemText retries attempt w =
  loop fuel apiKey itemText retries (S attempt)
       (mkWorld (S (issued w))
                (trace w ++ [Request apiKey itemText 5; Pause 300])).
Proof.
  intros Hf Hlt. simpl.
  assert ((attempt <=? retries)%nat = true) as -> by (apply Nat.leb_le; lia).
  assert ((attempt <? retries)%nat = true) as -> by (by apply Nat.ltb_lt).
  unfold sleep. simpl. rewrite <- app_assoc. simpl.
  by destruct (upstream (issued w)).
Qed.

Lemma loop_skip_failures k : ∀ fuel attempt w,
  (∀ j, (j < k)%nat → failed (upstream (issued w + j)) = true) →
  (attempt + k ≤ retries)%nat →
  loop (k + fuel) apiKey itemText retries attempt w =
  loop fuel apiKey itemText retries (attempt + k)
       (mkWorld (issued w + k) (trace w ++ retry_trace apiKey itemText k)).
Proof.
  induction k as [|k IH]; intros fuel attempt w Hfail Hle.
  - simpl. rewrite !Nat.add_0_r, app_nil_r. by destruct w.
  - change (S k + fuel)%nat with (S (k + fuel)).
    rewrite loop_retry; [|by rewrite <- (Nat.add_0_r (issued w)); apply Hfail; lia|lia].
    rewrite IH; simpl.
    + rewrite <- app_assoc. simpl. do 2 f_equal; [lia|f_equal; lia].
    + intros j Hj. replace (S (issued w + j)) with (issued w + S j)%nat by lia.
      apply Hfail. lia.
    + lia.
Qed.

Lemma loop_last_failure w :
  failed (upstream (issued w)) = true →
  loop 1 apiKey itemText retries retries w =
  (None, mkWorld (S (issued w)) (trace w ++ [Request apiKey itemText 5])).
Proof.
  intros Hf. simpl. rewrite Nat.leb_refl, Nat.ltb_irrefl.
  by destruct (upstream (issued w)).
Qed.

Lemma loop_answer fuel attempt w data :
  (attempt ≤ retries)%nat →
  upstream (issued w) = OkJson data →
  loop (S fuel) apiKey itemText retries attempt w =
  (result_of_data data,
   mkWorld (S (issued w)) (trace w ++ [Request apiKey itemText 5])).
Proof.
  intros Hle Hu. simpl.
  assert ((attempt <=? retries)%nat = true) as -> by (by apply Nat.leb_le).
  rewrite Hu. unfold result_of_data. by destruct (foods data) as [[|food rest]|].
Qed.

(** All [S retries] attempts fail. *)
Lemma searchFood_exhausted w :
  (∀ j, (j ≤ retries)%nat → failed (upstream (issued w + j)) = true) →
  searchFood upstream apiKey itemText retries w =
  (None, after_attempts apiKey itemText retries w).
Proof.
  intros Hfail. unfold searchFood.
  replace (S retries) with (retries + 1)%nat by lia.
  rewrite loop_skip_failures; [|intros; apply Hfail; lia|lia].
  change (0 + retries)%nat with retries. rewrite loop_last_failure; simpl.
  - unfold after_attempts. rewrite <- app_assoc. do 2 f_equal. lia.
  - apply Hfail. lia.
Qed.

(** The first [k] attempts fail and the next one is answered. *)
Lemma searchFood_answered k w data :
  (k ≤ retries)%nat →
  (∀ j, (j < k)%nat → failed (upstream (issued w + j)) = true) →
  upstream (issued w + k) = OkJson data →
  searchFood upstream apiKey itemText retries w =
  (result_of_data data, after_attempts apiKey itemText k w).
Proof.
  intros Hk Hfail Hu. unfold searchFood.
  replace (S retries) with (k + S (retries - k))%nat by lia.
  rewrite loop_skip_failures; [|done|lia].
  rewrite (loop_answer _ _ _ data); simpl; [|lia|done].
  unfold after_attempts. rewrite <- app_assoc. do 2 f_equal. lia.
Qed.

End ResolverFacts.

(** Either every attempt up to the bound fails, or there is a first one
    that is answered. *)
Lemma first_answer (upstream : nat → FetchOutcome) (base n : nat) :
  (∀ j, (j ≤ n)%nat → failed (upstream (base + j)) = true) ∨
  (∃ k data, (k ≤ n)%nat ∧
             (∀ j, (j < k)%nat → failed (upstream (base + j)) = true) ∧
             upstream (base + k) = OkJson data).
Proof.
  induction n as [|n IH].
  - destruct (upstream (base + 0)) as [|status|data] eqn:E.
    + left. intros j Hj. assert (j = 0)%nat as -> by lia. by rewrite E.
    + left. intros j Hj. assert (j = 0)%nat as -> by lia. by rewrite E.
    + right. exists 0%nat, data. split; [lia|]. split; [intros j Hj; lia | done].
  - destruct IH as [Hall | (k & data & Hk & Hfail & Hu)].
    + destruct (upstream (base + S n)) as [|status|data] eqn:E.
      * left. intros j Hj. destruct (decide (j = S n)) as [->|]; [by rewrite E|].
        apply Hall. lia.
      * left. intros j Hj. destruct (decide (j = S n)) as [->|]; [by rewrite E|].
        apply Hall. lia.
      * right. exists (S n), data. split; [lia|]. split; [|done].
        intros j Hj. apply Hall. lia.
    + right. exists k, data. split; [lia|done].
Qed.

(** C3: for every item text and every upstream, the run of the resolver is
    one of two: all [S retries] attempts fail (a thrown error or a response
    that is not ok), each failure but the last is followed by a pause of
    300ms and another request, and not-found is returned after the last;
    or the first [k] attempts fail and are retried in this way and the next
    is answered, which ends the run at once with what the answer resolves
    to.  An answer without candidates gives not-found with no pause and no
    request after it, the same [None] as after exhausted retries.  With the
    default bound 2 an exhausted run is three requests and two pauses. *)
Theorem searchFood_retry_policy (upstream : nat → FetchOutcome)
    (apiKey itemText : string) (retries : nat) (w : World) :
  (((∀ j, (j ≤ retries)%nat → failed (upstream (issued w + j)) = true) ∧
    searchFood upstream apiKey itemText retries w =
    (None, after_attempts apiKey itemText retries w)) ∨
   (∃ k data,
      (k ≤ retries)%nat ∧
      (∀ j, (j < k)%nat → failed (upstream (issued w + j)) = true) ∧
      upstream (issued w + k) = OkJson data ∧
      searchFood upstream apiKey itemText retries w =
      (result_of_data data, after_attempts apiKey itemText k w))) ∧
  ((∀ j, (j ≤ retries)%nat → failed (upstream (issued w + j)) = true) →
   searchFood upstream apiKey itemText retries w =
   (None, after_attempts apiKey itemText retries w)) ∧
  (∀ k data,
     (k ≤ retries)%nat →
     (∀ j, (j < k)%nat → failed (upstream (issued w + j)) = true) →
     upstream (issued w + k) = OkJson data →
     foods data = Some [] →
     searchFood upstream apiKey itemText retries w =
     (None, after_attempts apiKey itemText k w)) ∧
  trace (after_attempts apiKey itemText default_retries w) =
  trace w ++ [Request apiKey itemText 5; Pause 300;
              Request apiKey itemText 5; Pause 300;
              Request apiKey itemText 5].
Proof.
  split; [|split; [|split]].
  - destruct (first_answer upstream (issued w) retries)
      as [Hall | (k & data & Hk & Hfail & Hu)].
    + left. split; [done|]. by apply searchFood_exhausted.
    + right. exists k, data. split; [done|]. split; [done|]. split; [done|].
      by apply searchFood_answered.
  - apply searchFood_exhausted.
  - intros k data Hk Hfail Hu Hfoods.
    rewrite (searchFood_answered _ _ _ _ k w data) by done.
    unfold result_of_data. by rewrite Hfoods.
  - reflexivity.
Qed.

Lemma searchFood_retry_policy_witness :
  searchFood always_threw "key" "eggs" 2 start =
  (None, mkWorld 3 [Request "key" "eggs" 5; Pause 300;
                    Request "key" "eggs" 5; Pause 300;
                    Request "key" "eggs" 5]) ∧
  searchFood (error_then (OkJson (mkData (Some [])))) "key" "eggs" 2 start =
  (None, mkWorld 2 [Request "key" "eggs" 5; Pause 300; Request "key" "eggs" 5]).
Proof.
  split.
  - apply (proj1 (proj2 (searchFood_retry_policy always_threw "key" "eggs" 2 start))).
    intros j _. reflexivity.
  - apply (proj1 (proj2 (proj2 (searchFood_retry_policy
                                  (error_then (OkJson (mkData (Some [])))) "key" "eggs" 2 start)))
                 1%nat (mkData (Some []))).
    + lia.
    + intros j Hj. destruct j; [reflexivity | lia].
    + reflexivity.
    + reflexivity.
Defined.

(** C8: with three attempts allowed, when the first attempt fails
    transiently and the second is answered, the resolver returns what it
    returns when the same answer comes at the first attempt: the result
    built from the first candidate of that answer. *)
Theorem searchFood_retry_transparent (upstream upstream' : nat → FetchOutcome)
    (apiKey itemText : string) (w w' : World) (data : SearchData) :
  failed (upstream (issued w)) = true →
  upstream (S (issued w)) = OkJson data →
  upstream' (issued w') = OkJson data →
  fst (searchFood upstream apiKey itemText 2 w) =
  fst (searchFood upstream' apiKey itemText 2 w') ∧
  (∀ food rest, foods data = Some (food :: rest) →
     fst (searchFood upstream apiKey itemText 2 w) = Some (result_of_food food)).
Proof.
  intros Hf Hu Hu'.
  rewrite (searchFood_answered upstream apiKey itemText 2 1 w data).
  - rewrite (searchFood_answered upstream' apiKey itemText 2 0 w' data).
    + split; [done|]. intros food rest Hfoods. simpl.
      unfold result_of_data. by rewrite Hfoods.
    + lia.
    + intros j Hj. lia.
    + by rewrite Nat.add_0_r.
  - lia.
  - intros j Hj. assert (j = 0)%nat as -> by lia. by rewrite Nat.add_0_r.
  - by rewrite Nat.add_1_r.
Qed.

Lemma searchFood_retry_transparent_witness :
  fst (searchFood (error_then egg_found) "key" "eggs" 2 start) =
  fst (searchFood (λ _, egg_found) "key" "eggs" 2 start) ∧
  fst (searchFood (error_then egg_found) "key" "eggs" 2 start) =
  Some (result_of_food egg).
Proof.
  destruct (searchFood_retry_transparent
              (error_then egg_found) (λ _, egg_found) "key" "eggs" start start
              (mkData (Some [egg])) eq_refl eq_refl eq_refl) as [Hsame Hres].
  split; [exact Hsame | exact (Hres egg [] eq_refl)].
Defined.

Lemma override_before f n o m : (m < n)%nat → override f n o m = f m.
Proof.
  intros H. unfold override.
  by assert ((m =? n)%nat = false) as -> by (apply Nat.eqb_neq; lia).
Qed.

Lemma override_at f n o : override f n o n = o.
Proof. unfold override. by rewrite Nat.eqb_refl. Qed.

(** C9, as stated, fails: the body [null] of a response with a success
    status lacks a [foods] array, and the resolver does not return at that
    attempt: reading [foods] of it throws, the attempt is retried after a
    pause like a transient failure, and not-found comes only after the
    third request; a content miss returns after the first. *)
Lemma searchFood_null_body :
  searchFood always_null "key" "eggs" default_retries start =
  (None, mkWorld 3 [Request "key" "eggs" 5; Pause 300;
                    Request "key" "eggs" 5; Pause 300;
                    Request "key" "eggs" 5]) ∧
  searchFood nothing_found "key" "eggs" default_retries start =
  (None, mkWorld 1 [Request "key" "eggs" 5]).
Proof. split; reflexivity. Qed.

(** C9, amended: a successful response whose body is a JSON value other
    than [null] and has no [foods] property (or has [null] there) is
    handled as a content miss: whatever the attempt it arrives at, the
    resolver returns not-found after this request, with no pause and no
    further request, and the resolver's result and effects are those of
    the same run with an empty [foods] array in its place. *)
Theorem searchFood_missing_foods (upstream : nat → FetchOutcome)
    (apiKey itemText : string) (retries k : nat) (w : World) :
  (k ≤ retries)%nat →
  (∀ j, (j < k)%nat → failed (upstream (issued w + j)) = true) →
  upstream (issued w + k) = OkJson (mkData None) →
  searchFood upstream apiKey itemText retries w =
  (None, after_attempts apiKey itemText k w) ∧
  searchFood upstream apiKey itemText retries w =
  searchFood (override upstream (issued w + k) (OkJson (mkData (Some []))))
             apiKey itemText retries w.
Proof.
  intros Hk Hfail Hu.
  rewrite (searchFood_answered upstream apiKey itemText retries k w (mkData None))
    by done.
  split; [done|].
  rewrite (searchFood_answered _ apiKey itemText retries k w (mkData (Some []))).
  - done.
  - done.
  - intros j Hj. rewrite override_before by lia. by apply Hfail.
  - apply override_at.
Qed.

Lemma searchFood_missing_foods_witness :
  searchFood (error_then (OkJson (mkData None))) "key" "eggs" 2 start =
  (None, mkWorld 2 [Request "key" "eggs" 5; Pause 300; Request "key" "eggs" 5]).
Proof.
  refine (proj1 (searchFood_missing_foods
                   (error_then (OkJson (mkData None))) "key" "eggs" 2 1 start
                   _ _ eq_refl)).
  - lia.
  - intros j Hj. destruct j; [reflexivity | lia].
Defined.

(** *** The nutrient dictionary *)

Lemma or_zero_idem x : or_zero (Some (or_zero x)) = or_zero x.
Proof.
  unfold or_zero, js_or. destruct x as [q|]; simpl; [|done].
  destruct (Qeq_bool q 0) eqn:E; simpl; [done|]. by rewrite E.
Qed.

Lemma or_zero_Qeq q : (or_zero (Some q) == q)%Q.
Proof.
  unfold or_zero, js_or. simpl. destruct (Qeq_bool q 0) eqn:E; simpl; [|done].
  apply Qeq_bool_iff in E. by rewrite E.
Qed.

Lemma or_zero_truthy q : truthy (Some q) = true → or_zero (Some q) = q.
Proof. unfold or_zero, js_or. by intros ->. Qed.

Lemma named_spec key n : named key n = true ↔ nutrientName n = key.
Proof. unfold named. apply String.eqb_eq. Qed.

(** The dictionary holds, under each name, the value of the last entry
    with this name. *)
Lemma collect_nutrients_lookup entries key :
  collect_nutrients entries !! key = stored key entries.
Proof.
  unfold collect_nutrients, stored.
  induction entries as [|n entries IH] using rev_ind; [done|].
  rewrite foldl_snoc, List.filter_app, lookup_insert. simpl.
  destruct (named key n) eqn:N.
  - apply named_spec in N. rewrite decide_True by done. by rewrite last_snoc.
  - rewrite decide_False; [by rewrite app_nil_r|].
    intros ?%named_spec. congruence.
Qed.

Lemma stored_last before e after :
  (∀ n, In n after → nutrientName n ≠ nutrientName e) →
  stored (nutrientName e) (before ++ e :: after) = Some (or_zero (value e)).
Proof.
  intros Hafter. unfold stored. rewrite List.filter_app. simpl.
  assert (named (nutrientName e) e = true) as -> by (by apply named_spec).
  assert (List.filter (named (nutrientName e)) after = []) as ->.
  { clear -Hafter. induction after as [|n after IH]; [done|]. simpl.
    destruct (named (nutrientName e) n) eqn:N.
    - apply named_spec in N. destruct (Hafter n); [by left|done].
    - apply IH. intros m Hm. apply Hafter. by right. }
  by rewrite last_snoc.
Qed.

Lemma last_filter_cons {A} (p : A → bool) l x rest :
  p x = true → last (List.filter p (l ++ x :: rest)) = last (List.filter p (x :: rest)).
Proof.
  intros Hp. rewrite List.filter_app, last_app. simpl. rewrite Hp.
  destruct (last (x :: List.filter p rest)) eqn:E; [done|].
  by apply last_None in E.
Qed.

Lemma stored_drop_earlier key before e middle e' after :
  nutrientName e = nutrientName e' →
  stored key (before ++ e :: middle ++ e' :: after) =
  stored key (before ++ middle ++ e' :: after).
Proof.
  intros Hname. unfold stored. f_equal.
  destruct (named key e') eqn:N.
  - rewrite (app_assoc before middle).
    change (before ++ e :: middle ++ e' :: after)
      with (before ++ [e] ++ middle ++ e' :: after).
    rewrite !app_assoc.
    by rewrite !(last_filter_cons (named key) _ e' after).
  - assert (named key e = false) as Ne by (unfold named in *; by rewrite Hname).
    rewrite !List.filter_app. simpl. rewrite !List.filter_app. simpl.
    by rewrite N, Ne.
Qed.

Lemma result_of_food_stored food :
  result_of_food food =
  let entries := nutrient_list food in
  {| name := description food;
     calories := or_zero (js_or (stored "Energy" entries)
                                (stored "Energy (Atwater General Factors)" entries));
     protein := or_zero (stored "Protein" entries);
     carbs := or_zero (stored "Carbohydrate, by difference" entries);
     fat := or_zero (stored "Total lipid (fat)" entries) |}.
Proof. unfold result_of_food. simpl. by rewrite !collect_nutrients_lookup. Qed.

Lemma field_from_or_zero x : field_from x (or_zero x).
Proof. destruct x as [q|]; simpl; [apply or_zero_Qeq|done]. Qed.

Lemma truthy_false x :
  truthy x = false → x = None ∨ ∃ q, x = Some q ∧ (q == 0)%Q.
Proof.
  destruct x as [q|]; simpl; [|by left]. intros H. right. exists q. split; [done|].
  apply Qeq_bool_iff. by destruct (Qeq_bool q 0).
Qed.

Lemma truthy_true q : ¬ (q == 0)%Q → truthy (Some q) = true.
Proof.
  intros H. simpl. destruct (Qeq_bool q 0) eqn:E; [|done].
  by apply Qeq_bool_iff in E.
Qed.

(** C5, as stated, fails: this food has the nutrient "Energy", with the
    value 0, and its calories are taken from "Energy (Atwater General
    Factors)". *)
Lemma calories_of_zero_energy :
  stored "Energy" (nutrient_list diet_soda) = Some 0%Q ∧
  calories (result_of_food diet_soda) = (2 # 1)%Q ∧
  ¬ (calories (result_of_food diet_soda) == 0)%Q.
Proof. split; [reflexivity|]. split; [reflexivity|]. by vm_compute. Qed.

(** C5, amended: calories is the value recorded for "Energy" when that
    value is not zero; when "Energy" is absent or recorded as zero it is
    the value recorded for "Energy (Atwater General Factors)", and zero
    when that is absent too.  Protein, carbs and fat are the values
    recorded for "Protein", "Carbohydrate, by difference" and "Total lipid
    (fat)", and zero for a name that is absent. *)
Theorem result_of_food_fields (food : Food) :
  let entries := nutrient_list food in
  let energy := stored "Energy" entries in
  let atwater := stored "Energy (Atwater General Factors)" entries in
  let r := result_of_food food in
  (∀ e, energy = Some e → ¬ (e == 0)%Q → calories r = e) ∧
  (truthy energy = false → field_from atwater (calories r)) ∧
  field_from (stored "Protein" entries) (protein r) ∧
  field_from (stored "Carbohydrate, by difference" entries) (carbs r) ∧
  field_from (stored "Total lipid (fat)" entries) (fat r).
Proof.
  intros entries energy atwater r. subst r.
  rewrite result_of_food_stored. simpl. fold entries. fold energy. fold atwater.
  split; [|split]; [| |by repeat split; apply field_from_or_zero].
  - intros e -> He. unfold js_or. rewrite (truthy_true _ He).
    by apply or_zero_truthy, truthy_true.
  - intros H. unfold js_or. rewrite H. apply field_from_or_zero.
Qed.

Lemma result_of_food_fields_witness :
  calories (result_of_food egg) = (143 # 1)%Q ∧
  (calories (result_of_food diet_soda) == 2 # 1)%Q ∧
  (protein (result_of_food egg) == 126 # 10)%Q ∧
  carbs (result_of_food diet_soda) = 0%Q.
Proof.
  destruct (result_of_food_fields egg) as (Hc & _ & Hp & _).
  destruct (result_of_food_fields diet_soda) as (_ & Ha & _ & Hk & _).
  split; [apply (Hc (143 # 1)%Q); [reflexivity | by vm_compute]|].
  split; [exact (Ha eq_refl)|].
  split; [exact Hp | exact Hk].
Defined.

(** C10, as stated, fails for calories: of two entries named "Energy"
    the last has the value 0, the dictionary keeps this 0, and the
    calories of the result are not this value but the 7 of the other
    energy label. *)
Lemma calories_of_last_zero_energy :
  collect_nutrients (nutrient_list broth) !! "Energy" = Some 0%Q ∧
  calories (result_of_food broth) = (7 # 1)%Q ∧
  ¬ (calories (result_of_food broth) == 0)%Q.
Proof.
  rewrite collect_nutrients_lookup, result_of_food_stored.
  split; [reflexivity|]. split; [reflexivity | by vm_compute].
Qed.

(** C10, amended: when the entries of a candidate hold two (or more)
    entries with one nutrient name, the dictionary keeps the value of the
    last of them (its [value], or 0 when it has none), the earlier entry
    can be taken away without changing the result, and protein, carbs and
    fat are the last value of their names; calories is the last value
    named "Energy" when that is not zero, and the last value named
    "Energy (Atwater General Factors)" when what is kept for "Energy" is
    zero or nothing. *)
Theorem last_entry_wins (descr : string)
    (before middle after : list NutrientEntry) (e0 e : NutrientEntry) :
  nutrientName e0 = nutrientName e →
  (∀ n, In n after → nutrientName n ≠ nutrientName e) →
  let entries := before ++ e0 :: middle ++ e :: after in
  let r := result_of_food (mkFood descr (Some entries)) in
  collect_nutrients entries !! nutrientName e = Some (or_zero (value e)) ∧
  r = result_of_food (mkFood descr (Some (before ++ middle ++ e :: after))) ∧
  (nutrientName e = "Protein" → protein r = or_zero (value e)) ∧
  (nutrientName e = "Carbohydrate, by difference" → carbs r = or_zero (value e)) ∧
  (nutrientName e = "Total lipid (fat)" → fat r = or_zero (value e)) ∧
  (nutrientName e = "Energy" → truthy (value e) = true →
   calories r = or_zero (value e)) ∧
  (nutrientName e = "Energy (Atwater General Factors)" →
   truthy (stored "Energy" entries) = false → calories r = or_zero (value e)).
Proof.
  intros Hname Hafter entries r.
  assert (stored (nutrientName e) entries = Some (or_zero (value e))) as Hlast.
  { subst entries.
    change (before ++ e0 :: middle ++ e :: after)
      with (before ++ [e0] ++ middle ++ e :: after).
    rewrite !app_assoc. by apply stored_last. }
  subst r. rewrite !result_of_food_stored. cbv zeta.
  unfold nutrient_list. cbn [foodNutrients description]. fold entries.
  split; [by rewrite collect_nutrients_lookup|].
  split; [subst entries; by rewrite !(stored_drop_earlier _ before e0 middle e after)|].
  cbn [protein carbs fat calories].
  repeat split.
  - intros N. rewrite <- N, Hlast. apply or_zero_idem.
  - intros N. rewrite <- N, Hlast. apply or_zero_idem.
  - intros N. rewrite <- N, Hlast. apply or_zero_idem.
  - intros N T. rewrite <- N, Hlast. unfold js_or.
    assert (truthy (Some (or_zero (value e))) = true) as ->; [|apply or_zero_idem].
    destruct (value e) as [q|]; [|done]. by rewrite (or_zero_truthy _ T).
  - intros N T. unfold js_or. rewrite T, <- N, Hlast. apply or_zero_idem.
Qed.

Lemma last_entry_wins_witness :
  protein (result_of_food tofu) = (81 # 10)%Q ∧
  result_of_food tofu =
  result_of_food (mkFood "Tofu" (Some [mkEntry "Energy" (Some (76 # 1));
                                        mkEntry "Protein" (Some (81 # 10))])).
Proof.
  destruct (last_entry_wins "Tofu" [] [mkEntry "Energy" (Some (76 # 1))] []
              (mkEntry "Protein" (Some (8 # 1)))
              (mkEntry "Protein" (Some (81 # 10))) eq_refl)
    as (_ & Hsame & Hp & _).
  - intros n [].
  - split; [exact (Hp eq_refl) | exact Hsame].
Defined.

(** ** The Aggregator *)

Lemma Math_round_Qeq x y : (x == y)%Q → Math_round x = Math_round y.
Proof. intros H. unfold Math_round. by rewrite H. Qed.

Section AggregatorFacts.

Context {St : Type}.
Variable resolve : string → St → option NutrientResult * St.
Variable number_to_string : Q → string.

Local Abbreviation run := (visit_all resolve number_to_string).
Local Abbreviation outs := (outcomes resolve).

(** The loop adds to the tally what the resolved items contribute and
    lists the texts of the others. *)
Lemma visit_all_tally items : ∀ t st,
  let t' := fst (run items t st) in
  let os := outs items st in
  foundItems t' = foundItems t ++ List.map (found_label number_to_string) (resolved os) ∧
  notFoundItems t' = notFoundItems t ++ unresolved os ∧
  (sum_calories (totalNutrients t') ==
     sum_calories (totalNutrients t) + weighted_sum calories (resolved os))%Q ∧
  (sum_protein (totalNutrients t') ==
     sum_protein (totalNutrients t) + weighted_sum protein (resolved os))%Q ∧
  (sum_carbs (totalNutrients t') ==
     sum_carbs (totalNutrients t) + weighted_sum carbs (resolved os))%Q ∧
  (sum_fat (totalNutrients t') ==
     sum_fat (totalNutrients t) + weighted_sum fat (resolved os))%Q.
Proof.
  induction items as [|item rest IH]; intros t st; cbv zeta.
  - unfold resolved, unresolved. simpl. rewrite !app_nil_r.
    conjuncts; try done; ring.
  - simpl. unfold visit.
    destruct (resolve (text item) st) as [[r|] st'] eqn:R.
    + destruct (IH (mkTally
                      (mkTotals (sum_calories (totalNutrients t) + calories r * qty item)
                                (sum_protein (totalNutrients t) + protein r * qty item)
                                (sum_carbs (totalNutrients t) + carbs r * qty item)
                                (sum_fat (totalNutrients t) + fat r * qty item))
                      (foundItems t ++ [number_to_string (qty item) +:+ " x " +:+ name r])
                      (notFoundItems t)) st')
        as (Hf & Hn & Hc & Hp & Hk & Hfat).
      simpl in *. unfold resolved, unresolved in *. simpl.
      rewrite Hf, Hn, Hc, Hp, Hk, Hfat, <- app_assoc.
      conjuncts; try done; ring.
    + destruct (IH (mkTally (totalNutrients t) (foundItems t)
                            (notFoundItems t ++ [text item])) st')
        as (Hf & Hn & Hc & Hp & Hk & Hfat).
      simpl in *. unfold resolved, unresolved in *. simpl.
      rewrite Hf, Hn, <- app_assoc. done.
Qed.

(** The answer of the handler in terms of what the items resolve to. *)
Lemma aggregate_answer rawQuery st :
  let os := outs (parseItems rawQuery) st in
  match fst (aggregate resolve number_to_string rawQuery st) with
  | NoResults error =>
      resolved os = [] ∧ error = "No results for '" +:+ rawQuery +:+ "'"
  | Found body =>
      resolved os ≠ [] ∧
      Outcome.name body = join ", " (List.map (found_label number_to_string) (resolved os)) ∧
      Outcome.calories body = Math_round (weighted_sum calories (resolved os)) ∧
      Outcome.protein body = Math_round (weighted_sum protein (resolved os)) ∧
      Outcome.carbs body = Math_round (weighted_sum carbs (resolved os)) ∧
      Outcome.fat body = Math_round (weighted_sum fat (resolved os)) ∧
      Outcome.partial body = negb (Nat.eqb (length (unresolved os)) 0) ∧
      Outcome.missing body = unresolved os
  end.
Proof.
  cbv zeta. unfold aggregate.
  pose proof (visit_all_tally (parseItems rawQuery) empty_tally st) as H.
  cbv zeta in H.
  destruct (run (parseItems rawQuery) empty_tally st) as [t st'].
  simpl in H. destruct H as (Hf & Hn & Hc & Hp & Hk & Hfat).
  simpl. unfold answer. rewrite Hf, Hn.
  destruct (resolved (outs (parseItems rawQuery) st)) as [|ir rs] eqn:E; simpl.
  - done.
  - conjuncts; try done; apply Math_round_Qeq.
    + rewrite Hc. simpl. ring.
    + rewrite Hp. simpl. ring.
    + rewrite Hk. simpl. ring.
    + rewrite Hfat. simpl. ring.
Qed.

End AggregatorFacts.

Lemma outcomes_items {St : Type} (resolve : string → St → option NutrientResult * St)
    (items : list ItemDescriptor) (st : St) :
  List.map fst (outcomes resolve items st) = items.
Proof.
  revert st. induction items as [|item rest IH]; intros st; simpl; [done|].
  destruct (resolve (text item) st) as [r st']. simpl. by rewrite IH.
Qed.

(** The loop over the numbers of the engine: the labels of the resolved
    items are appended, and each running total is the sum the engine
    computes from the total it started with. *)
Lemma machine_tally {num St : Type} (zero : num) (add mul : num → num → num)
    (number_to_string : num → string)
    (resolve : string → St → option Machine.Result * St)
    (items : list Machine.Item) : ∀ t st,
  let t' := fst (Machine.visit_all add mul number_to_string resolve items t st) in
  let rs := Machine.resolved (Machine.outcomes resolve items st) in
  let n := Machine.totalNutrients t in
  Machine.foundItems t' =
    Machine.foundItems t ++
    List.map (λ ir, number_to_string (Machine.qty (fst ir)) +:+ " x " +:+
                    Machine.name (snd ir)) rs ∧
  Machine.sum_calories (Machine.totalNutrients t') =
    Machine.sum_from add mul Machine.calories (Machine.sum_calories n) rs ∧
  Machine.sum_protein (Machine.totalNutrients t') =
    Machine.sum_from add mul Machine.protein (Machine.sum_protein n) rs ∧
  Machine.sum_carbs (Machine.totalNutrients t') =
    Machine.sum_from add mul Machine.carbs (Machine.sum_carbs n) rs ∧
  Machine.sum_fat (Machine.totalNutrients t') =
    Machine.sum_from add mul Machine.fat (Machine.sum_fat n) rs.
Proof.
  induction items as [|item rest IH]; intros t st; cbv zeta.
  - simpl. by rewrite app_nil_r.
  - simpl. unfold Machine.visit.
    destruct (resolve (Machine.text item) st) as [[r|] st'] eqn:R.
    + destruct (IH (Machine.mkTally
                      (Machine.mkTotals
                         (add (Machine.sum_calories (Machine.totalNutrients t))
                              (mul (Machine.calories r) (Machine.qty item)))
                         (add (Machine.sum_protein (Machine.totalNutrients t))
                              (mul (Machine.protein r) (Machine.qty item)))
                         (add (Machine.sum_carbs (Machine.totalNutrients t))
                              (mul (Machine.carbs r) (Machine.qty item)))
                         (add (Machine.sum_fat (Machine.totalNutrients t))
                              (mul (Machine.fat r) (Machine.qty item))))
                      (Machine.foundItems t ++
                       [number_to_string (Machine.qty item) +:+ " x " +:+ Machine.name r])
                      (Machine.notFoundItems t)) st')
        as (Hf & Hc & Hp & Hk & Hfat).
      simpl in *. unfold Machine.resolved in *. simpl.
      rewrite Hf, Hc, Hp, Hk, Hfat, <- app_assoc. done.
    + destruct (IH (Machine.mkTally (Machine.totalNutrients t) (Machine.foundItems t)
                      (Machine.notFoundItems t ++ [Machine.text item])) st')
        as (Hf & Hc & Hp & Hk & Hfat).
      simpl in *. unfold Machine.resolved in *. simpl. done.
Qed.

(** C1, as stated, fails: when no item of the phrase resolves, the sum over
    the resolved items is empty, and the outcome has no calories field
    instead of the rounded sum 0. *)
Lemma aggregate_nothing_found_totals :
  let resolve := resolve_with nothing_found in
  let o := fst (aggregate resolve plain_number "tofu" start) in
  let rs := resolved (outcomes resolve (parseItems "tofu") start) in
  rs = [] ∧
  o = NoResults "No results for 'tofu'" ∧
  get Outcome.calories o ≠ Some (Math_round (weighted_sum calories rs)).
Proof. cbv zeta. split; [reflexivity|]. split; [reflexivity|]. by vm_compute. Qed.

(** C1, amended: for every list of items the phrase segments to and every
    resolver, when at least one item resolves the calories, protein, carbs
    and fat of the outcome are each [Math.round], applied once, of the sum
    the engine computes, from 0 and in the order of the phrase, of per-unit
    value times quantity over exactly the items that resolved; when no item
    resolves the outcome is only found = false with its message and has
    none of these fields.  The numbers and their operations are those of
    the engine, whatever they are. *)
Theorem aggregate_rounds_once {num St : Type}
    (zero : num) (add mul : num → num → num) (round : num → num)
    (number_to_string : num → string)
    (resolve : string → St → option Machine.Result * St)
    (rawQuery : string) (items : list Machine.Item) (st : St) :
  let rs := Machine.resolved (Machine.outcomes resolve items st) in
  let o := fst (Machine.aggregate zero add mul round number_to_string resolve
                                  rawQuery items st) in
  (rs ≠ [] →
   ∃ body, o = Machine.Found body ∧
     Machine.out_calories body = round (Machine.sum_from add mul Machine.calories zero rs) ∧
     Machine.out_protein body = round (Machine.sum_from add mul Machine.protein zero rs) ∧
     Machine.out_carbs body = round (Machine.sum_from add mul Machine.carbs zero rs) ∧
     Machine.out_fat body = round (Machine.sum_from add mul Machine.fat zero rs)) ∧
  (rs = [] → o = Machine.NoResults ("No results for '" +:+ rawQuery +:+ "'")).
Proof.
  cbv zeta. unfold Machine.aggregate.
  pose proof (machine_tally zero add mul number_to_string resolve items
                (Machine.empty_tally zero) st) as H.
  cbv zeta in H.
  destruct (Machine.visit_all add mul number_to_string resolve items
              (Machine.empty_tally zero) st) as [t st'].
  simpl in H. destruct H as (Hf & Hc & Hp & Hk & Hfat).
  simpl. unfold Machine.answer. rewrite Hf, Hc, Hp, Hk, Hfat.
  destruct (Machine.resolved (Machine.outcomes resolve items st)) as [|ir rs]; simpl.
  - split; [intros Hne; by destruct Hne | done].
  - split; [|done]. intros _. eexists. split; [reflexivity|]. simpl. done.
Qed.

(** Two servings of three eighths of a calorie: rounded once they make one
    calorie, rounded one by one they would make none. *)
Lemma aggregate_rounds_once_witness :
  let items := [Machine.mkItem 1%Q "tea"; Machine.mkItem 1%Q "tea"] in
  let resolve := λ (_ : string) (st : unit),
    (Some (Machine.mkResult "Tea" (3 # 8) 0%Q 0%Q 0%Q), st) in
  ∃ body,
    fst (Machine.aggregate 0%Q Qplus Qmult Q_round plain_number resolve
                           "tea, tea" items tt) = Machine.Found body ∧
    Machine.out_calories body = 1%Q ∧
    Machine.rounded_sum_from Qplus Qmult Q_round Machine.calories 0%Q
      (Machine.resolved (Machine.outcomes resolve items tt)) = 0%Q.
Proof.
  cbv zeta.
  destruct (aggregate_rounds_once 0%Q Qplus Qmult Q_round plain_number
              (λ (_ : string) (st : unit),
                 (Some (Machine.mkResult "Tea" (3 # 8) 0%Q 0%Q 0%Q), st))
              "tea, tea" [Machine.mkItem 1%Q "tea"; Machine.mkItem 1%Q "tea"] tt)
    as [Hfound _].
  destruct Hfound as (body & Ho & Hc & _); [by vm_compute|].
  exists body. split; [exact Ho|]. split; [|reflexivity].
  rewrite Hc. reflexivity.
Defined.

(** C2, as stated, fails: when no item resolves, the item that did not
    resolve is not listed, the outcome has no missing list (and no partial
    flag) at all. *)
Lemma aggregate_nothing_found_missing :
  let resolve := resolve_with nothing_found in
  let o := fst (aggregate resolve plain_number "tofu" start) in
  unresolved (outcomes resolve (parseItems "tofu") start) = ["tofu"] ∧
  get Outcome.missing o = None ∧
  get Outcome.partial o = None.
Proof. cbv zeta. split; [reflexivity|]. split; reflexivity. Qed.

(** C2, amended: for every phrase and every resolver, found is true
    exactly when at least one item resolved; partial is true exactly when
    at least one item resolved and at least one did not; when at least one
    item resolved, missing is the list of the texts of the items that did
    not resolve, in their order in the phrase; when none resolved, the
    outcome is only found = false with the message naming the phrase. *)
Theorem aggregate_classification {St : Type}
    (resolve : string → St → option NutrientResult * St)
    (number_to_string : Q → string) (rawQuery : string) (st : St) :
  let os := outcomes resolve (parseItems rawQuery) st in
  let o := fst (aggregate resolve number_to_string rawQuery st) in
  List.map fst os = parseItems rawQuery ∧
  (found o = true ↔ resolved os ≠ []) ∧
  (get Outcome.partial o = Some true ↔ resolved os ≠ [] ∧ unresolved os ≠ []) ∧
  (resolved os ≠ [] → get Outcome.missing o = Some (unresolved os)) ∧
  (resolved os = [] → o = NoResults ("No results for '" +:+ rawQuery +:+ "'")).
Proof.
  cbv zeta. split; [apply outcomes_items|].
  pose proof (aggregate_answer resolve number_to_string rawQuery st) as H.
  cbv zeta in H.
  destruct (fst (aggregate resolve number_to_string rawQuery st)) as [error|body].
  - destruct H as [Hrs ->]. rewrite Hrs. simpl.
    split; [split; [discriminate | congruence]|].
    split; [split; [discriminate | intros [? _]; congruence]|].
    split; [congruence | done].
  - destruct H as (Hne & _ & _ & _ & _ & _ & Hp & Hm). simpl.
    rewrite Hp, Hm.
    split; [done|].
    split; [|split; [done | congruence]].
    split.
    + intros [= Hl]. split; [done|]. intros E. by rewrite E in Hl.
    + intros [_ Hu]. by destruct (unresolved _).
Qed.

Lemma aggregate_classification_witness :
  let o := fst (aggregate (resolve_with eggs_only) plain_number
                          "2 eggs and a banana" start) in
  found o = true ∧
  get Outcome.partial o = Some true ∧
  get Outcome.missing o = Some ["banana"] ∧
  get Outcome.calories o = Some 286%Z.
Proof.
  cbv zeta.
  destruct (aggregate_classification (resolve_with eggs_only) plain_number
              "2 eggs and a banana" start) as (_ & Hf & Hp & Hm & _).
  split; [apply Hf; by vm_compute|].
  split; [apply Hp; split; by vm_compute|].
  split; [|reflexivity].
  rewrite Hm; [reflexivity | by vm_compute].
Defined.


(** * Further properties of the Cloud Function *)

(** ** The exported function: what a request costs *)

(** X1: the handler answers with a status and an error in three cases
    only: 400 for a request without a truthy query, in the query string and
    in the body; 500 with "USDA API key not configured" when the query is
    there and the key is not; 500 with the message of the error when the
    key is there and the query is not a string (the array of a repeated
    parameter, for one), which makes [parseItems] throw.  In all three it
    sends nothing upstream.  It answers with a JSON outcome exactly when
    the query is a non-empty string and the key is configured. *)
Theorem handler_status (upstream : nat → FetchOutcome) (number_to_string : Q → string)
    (USDA_API_KEY : option string) (req : HttpRequest) (w : World) :
  let rawQuery := param_or (query_query req) (body_query req) in
  let apiKey := first_truthy USDA_API_KEY None in
  match fst (handler upstream number_to_string USDA_API_KEY req w) with
  | Status code error =>
      snd (handler upstream number_to_string USDA_API_KEY req w) = w ∧
      ((code = 400%nat ∧ error = "Missing 'query' parameter" ∧
        truthy_param rawQuery = false) ∨
       (code = 500%nat ∧ error = "USDA API key not configured" ∧
        truthy_param rawQuery = true ∧ apiKey = None) ∨
       (code = 500%nat ∧ rawQuery = NotText error ∧ apiKey ≠ None))
  | Json _ => (∃ q, rawQuery = Text q ∧ q ≠ "") ∧ apiKey ≠ None
  end.
Proof.
  cbv zeta. unfold handler.
  destruct (param_or (query_query req) (body_query req)) as [|[|c q]|message];
    simpl.
  - split; [done|]. by left.
  - split; [done|]. by left.
  - destruct (first_truthy USDA_API_KEY None) as [apiKey|]; simpl.
    + destruct (aggregate _ _ _ _). simpl. split; [by eauto|done].
    + split; [done|]. right. by left.
  - destruct (first_truthy USDA_API_KEY None) as [apiKey|]; simpl.
    + split; [done|]. right. by right.
    + split; [done|]. right. by left.
Qed.

(** ** The resolver: how many requests *)

(** The world after one call of the resolver: [k] retried attempts and a
    last request, for some [k] within the bound. *)
Lemma searchFood_world (upstream : nat → FetchOutcome)
    (apiKey itemText : string) (retries : nat) (w : World) :
  ∃ k, (k ≤ retries)%nat ∧
       snd (searchFood upstream apiKey itemText retries w) =
       after_attempts apiKey itemText k w.
Proof.
  destruct (first_answer upstream (issued w) retries)
    as [Hall | (k & data & Hk & Hfail & Hu)].
  - exists retries. split; [done|]. by rewrite searchFood_exhausted.
  - exists k. split; [done|]. by rewrite (searchFood_answered _ _ _ _ k w data).
Qed.

Lemma retry_trace_length apiKey itemText k :
  length (retry_trace apiKey itemText k) = (2 * k)%nat.
Proof. induction k as [|k IH]; simpl; lia. Qed.

Lemma retry_trace_events apiKey itemText k :
  Forall (λ e, e = Request apiKey itemText 5 ∨ e = Pause 300)
         (retry_trace apiKey itemText k).
Proof.
  induction k as [|k IH]; simpl; [constructor|].
  constructor; [by left|]. constructor; [by right|done].
Qed.

(** X2: whatever the upstream answers, one call of the resolver sends at
    least one and at most [retries + 1] requests; it leaves the trace it
    finds in place and adds to it only requests for its own key and text
    with page size 5 and pauses of 300ms, one pause less than requests. *)
Theorem searchFood_effects (upstream : nat → FetchOutcome)
    (apiKey itemText : string) (retries : nat) (w : World) :
  let w' := snd (searchFood upstream apiKey itemText retries w) in
  (issued w < issued w' ≤ issued w + S retries)%nat ∧
  ∃ added,
    trace w' = trace w ++ added ∧
    Forall (λ e, e = Request apiKey itemText 5 ∨ e = Pause 300) added ∧
    length added = (2 * (issued w' - issued w) - 1)%nat.
Proof.
  cbv zeta.
  destruct (searchFood_world upstream apiKey itemText retries w) as (k & Hk & ->).
  unfold after_attempts. simpl. split; [lia|].
  exists (retry_trace apiKey itemText k ++ [Request apiKey itemText 5]).
  split; [done|]. split.
  - apply Forall_app. split; [apply retry_trace_events|].
    constructor; [by left|constructor].
  - rewrite length_app, retry_trace_length. simpl. lia.
Qed.

Lemma visit_world {St : Type} (resolve : string → St → option NutrientResult * St)
    (number_to_string : Q → string) item t st :
  snd (visit resolve number_to_string item t st) = snd (resolve (text item) st).
Proof. unfold visit. by destruct (resolve (text item) st) as [[r|] st']. Qed.

(** The world after the loop over the items, with the real resolver. *)
Lemma visit_all_world (upstream : nat → FetchOutcome) (number_to_string : Q → string)
    (apiKey : string) (retries : nat) (items : list ItemDescriptor) : ∀ t w,
  ∃ ks, length ks = length items ∧
        Forall (λ k, k ≤ retries)%nat ks ∧
        snd (visit_all (λ itemText, searchFood upstream apiKey itemText retries)
                       number_to_string items t w) =
        mkWorld (issued w + length items + sum_list ks)
                (trace w ++ item_blocks apiKey items ks).
Proof.
  induction items as [|item rest IH]; intros t w.
  - exists []. split; [done|]. split; [constructor|]. simpl.
    rewrite !Nat.add_0_r, app_nil_r. by destruct w.
  - simpl.
    pose proof (visit_world (λ itemText, searchFood upstream apiKey itemText retries)
                            number_to_string item t w) as Hw.
    destruct (visit _ _ item t w) as [t' w'] eqn:V. simpl in Hw. subst w'.
    destruct (searchFood_world upstream apiKey (text item) retries w)
      as (k & Hk & Hsnd).
    destruct (IH t' (snd (searchFood upstream apiKey (text item) retries w)))
      as (ks & Hlen & Hall & Hrest).
    exists (k :: ks). split; [simpl; lia|]. split; [by constructor|].
    rewrite Hrest, Hsnd. unfold after_attempts. simpl. f_equal; [lia|].
    by rewrite <- !app_assoc.
Qed.

Lemma aggregate_world {St : Type} (resolve : string → St → option NutrientResult * St)
    (number_to_string : Q → string) (rawQuery : string) (st : St) :
  snd (aggregate resolve number_to_string rawQuery st) =
  snd (visit_all resolve number_to_string (parseItems rawQuery) empty_tally st).
Proof. unfold aggregate. by destruct (visit_all _ _ _ _ _). Qed.

Lemma sum_list_bounded (b : nat) (ks : list nat) :
  Forall (λ k, k ≤ b)%nat ks → (sum_list ks ≤ b * length ks)%nat.
Proof. induction 1 as [|k ks Hk _ IH]; simpl; lia. Qed.

(** X3: the handler resolves the items one after the other, in the order
    of the phrase: the trace of a request is the trace found, followed for
    each item in turn by the requests for this item's text (at most three,
    300ms apart), and by nothing else. *)
Theorem aggregate_requests_in_order (upstream : nat → FetchOutcome)
    (number_to_string : Q → string) (apiKey rawQuery : string) (w : World) :
  let resolve := λ itemText, searchFood upstream apiKey itemText default_retries in
  let w' := snd (aggregate resolve number_to_string rawQuery w) in
  ∃ ks, length ks = length (parseItems rawQuery) ∧
        Forall (λ k, k ≤ 2)%nat ks ∧
        trace w' = trace w ++ item_blocks apiKey (parseItems rawQuery) ks.
Proof.
  cbv zeta. rewrite aggregate_world.
  destruct (visit_all_world upstream number_to_string apiKey default_retries
              (parseItems rawQuery) empty_tally w) as (ks & Hlen & Hall & ->).
  exists ks. done.
Qed.

(** X4: a request with n items costs at least n and at most 3n upstream
    requests; a phrase without items costs none. *)
Theorem aggregate_request_count (upstream : nat → FetchOutcome)
    (number_to_string : Q → string) (apiKey rawQuery : string) (w : World) :
  let resolve := λ itemText, searchFood upstream apiKey itemText default_retries in
  let w' := snd (aggregate resolve number_to_string rawQuery w) in
  let n := length (parseItems rawQuery) in
  (issued w + n ≤ issued w' ≤ issued w + 3 * n)%nat.
Proof.
  cbv zeta. rewrite aggregate_world.
  destruct (visit_all_world upstream number_to_string apiKey default_retries
              (parseItems rawQuery) empty_tally w) as (ks & Hlen & Hall & ->).
  simpl. pose proof (sum_list_bounded _ _ Hall) as Hsum.
  unfold default_retries in Hsum. lia.
Qed.

(** ** The outcome: its name, and where a result comes from *)

(** X5: the name of a found outcome lists the resolved items in the order
    of the phrase, each as its quantity, " x " and the description of the
    matched food, separated by ", "; items that did not resolve leave no
    mark in it. *)
Theorem aggregate_name {St : Type}
    (resolve : string → St → option NutrientResult * St)
    (number_to_string : Q → string) (rawQuery : string) (st : St) (body : Outcome.body) :
  fst (aggregate resolve number_to_string rawQuery st) = Found body →
  Outcome.name body =
  join ", " (List.map (λ ir, number_to_string (qty (fst ir)) +:+ " x " +:+ name (snd ir))
                      (resolved (outcomes resolve (parseItems rawQuery) st))).
Proof.
  intros H. pose proof (aggregate_answer resolve number_to_string rawQuery st) as A.
  cbv zeta in A. rewrite H in A. by destruct A as (_ & -> & _).
Qed.

Lemma aggregate_name_witness :
  ∃ body,
    fst (aggregate (resolve_with eggs_only) plain_number "2 eggs and a banana" start)
    = Found body ∧
    Outcome.name body = "n x Egg, whole, raw".
Proof.
  eexists. split; [reflexivity|].
  rewrite (aggregate_name (resolve_with eggs_only) plain_number
             "2 eggs and a banana" start _ eq_refl).
  reflexivity.
Defined.

(** X7: a result of the resolver is always the one built from the first
    candidate of an answer of the upstream, this answer came to the last
    request of the call, and every request of the call before it failed. *)
Theorem searchFood_result_origin (upstream : nat → FetchOutcome)
    (apiKey itemText : string) (retries : nat) (w : World) (r : NutrientResult) :
  fst (searchFood upstream apiKey itemText retries w) = Some r →
  ∃ k food rest,
    (k ≤ retries)%nat ∧
    (∀ j, (j < k)%nat → failed (upstream (issued w + j)) = true) ∧
    upstream (issued w + k) = OkJson (mkData (Some (food :: rest))) ∧
    r = result_of_food food ∧
    issued (snd (searchFood upstream apiKey itemText retries w)) = (issued w + S k)%nat.
Proof.
  destruct (first_answer upstream (issued w) retries)
    as [Hall | (k & data & Hk & Hfail & Hu)].
  - by rewrite searchFood_exhausted.
  - rewrite (searchFood_answered _ _ _ _ k w data) by done. simpl.
    unfold result_of_data. destruct data as [[[|food rest]|]]; simpl; try done.
    intros [= <-]. by exists k, food, rest.
Qed.

Lemma searchFood_result_origin_witness :
  ∃ k food rest,
    (k ≤ 2)%nat ∧
    (∀ j, (j < k)%nat → failed (error_then egg_found (0 + j)) = true) ∧
    error_then egg_found (0 + k) = OkJson (mkData (Some (food :: rest))) ∧
    result_of_food egg = result_of_food food ∧
    issued (snd (searchFood (error_then egg_found) "key" "eggs" 2 start)) = (0 + S k)%nat.
Proof.
  exact (searchFood_result_origin (error_then egg_found) "key" "eggs" 2 start
           (result_of_food egg) eq_refl).
Defined.

(** ** The candidate: what is read of it *)

Lemma filter_filter_subsumed {A} (p q : A → bool) (l : list A) :
  (∀ x, p x = true → q x = true) →
  List.filter p (List.filter q l) = List.filter p l.
Proof.
  intros H. induction l as [|x l IH]; simpl; [done|].
  destruct (q x) eqn:Q; simpl.
  - by rewrite IH.
  - destruct (p x) eqn:P; [|done]. apply H in P. congruence.
Qed.

Lemma stored_consumed key entries :
  (∀ n, named key n = true → consumed n = true) →
  stored key (List.filter consumed entries) = stored key entries.
Proof. intros H. unfold stored. by rewrite filter_filter_subsumed. Qed.

(** X9: the result is built from the entries named "Energy", "Energy
    (Atwater General Factors)", "Protein", "Carbohydrate, by difference" and
    "Total lipid (fat)" alone: the entries of the candidate under any other
    name can be taken away without changing any field of the result. *)
Theorem result_of_food_consumed (descr : string) (entries : list NutrientEntry) :
  result_of_food (mkFood descr (Some entries)) =
  result_of_food (mkFood descr (Some (List.filter consumed entries))).
Proof.
  rewrite !result_of_food_stored. cbv zeta. unfold nutrient_list. simpl.
  rewrite !stored_consumed; [done|..];
    intros n Hn; unfold consumed; rewrite Hn; simpl;
    by rewrite ?orb_true_r.
Qed.

(** ** The Segmenter: commas *)

Lemma separator_at_cons c s' :
  separator_at (String c s') =
  if Ascii.eqb c "," then Some 1%nat
  else if Ascii.eqb c " " then
    match s' with
    | String a (String n (String d (String e _))) =>
        if Ascii.eqb e " " && (eqb_ci a "a" && eqb_ci n "n" && eqb_ci d "d")
        then Some 5%nat else None
    | _ => None
    end
  else None.
Proof.
  destruct c as [[] [] [] [] [] [] [] []]; try reflexivity.
  destruct s' as [|a [|n [|d [|e s']]]]; try reflexivity.
  destruct e as [[] [] [] [] [] [] [] []]; try reflexivity.
Qed.

Lemma separator_at_length s n :
  separator_at s = Some n → (1 ≤ n ≤ String.length s)%nat.
Proof.
  destruct s as [|c s']; [done|]. rewrite separator_at_cons.
  destruct (Ascii.eqb c ","); [intros [= <-]; simpl; lia|].
  destruct (Ascii.eqb c " "); [|done].
  destruct s' as [|a [|n' [|d [|e s']]]]; try done.
  destruct (_ && _); [|done]. intros [= <-]. simpl. lia.
Qed.

Lemma separator_at_not_comma c s' : separator_at (String c s') = None → c ≠ ","%char.
Proof. rewrite separator_at_cons. intros H ->. done. Qed.

Lemma separator_at_app_comma c s' t :
  separator_at (String c s' +:+ "," +:+ t) = separator_at (String c s').
Proof.
  change (String c s' +:+ "," +:+ t) with (String c (s' +:+ "," +:+ t)).
  rewrite !separator_at_cons.
  destruct (Ascii.eqb c ","); [done|]. destruct (Ascii.eqb c " "); [|done].
  assert (eqb_ci "," "a" = false) as Ha by reflexivity.
  assert (eqb_ci "," "n" = false) as Hn by reflexivity.
  assert (eqb_ci "," "d" = false) as Hd by reflexivity.
  destruct s' as [|a [|n [|d [|e s']]]]; [| | | |done].
  - destruct t as [|n [|d [|e t]]]; try done.
    change ("" +:+ "," +:+ String n (String d (String e t)))
      with (String "," (String n (String d (String e t)))).
    cbv beta iota. by rewrite Ha, andb_false_r.
  - destruct t as [|d [|e t]]; try done.
    change (String a "" +:+ "," +:+ String d (String e t))
      with (String a (String "," (String d (String e t)))).
    cbv beta iota. by rewrite Hn, !andb_false_r.
  - destruct t as [|e t]; try done.
    change (String a (String n "") +:+ "," +:+ String e t)
      with (String a (String n (String "," (String e t)))).
    cbv beta iota. by rewrite Hd, !andb_false_r.
  - done.
Qed.

Lemma split_go_nonempty s : ∀ k, split_go k s ≠ [].
Proof.
  induction s as [|c s IH]; intros k; [done|].
  destruct k as [|k]; [|exact (IH k)].
  change (split_go 0 (String c s))
    with (match separator_at (String c s) with
          | Some n => EmptyString :: split_go (Nat.pred n) s
          | None => push_char c (split_go 0 s)
          end).
  destruct (separator_at (String c s)); [done|].
  specialize (IH 0%nat). by destruct (split_go 0 s).
Qed.

Lemma split_go_app_comma q2 q1 : ∀ k,
  (k ≤ String.length q1)%nat →
  split_go k (q1 +:+ "," +:+ q2) = split_go k q1 ++ split_go 0 q2.
Proof.
  induction q1 as [|c s IH]; intros k Hk.
  - simpl in Hk. assert (k = 0)%nat as -> by lia. reflexivity.
  - destruct k as [|k].
    + change (split_go 0 (String c s +:+ "," +:+ q2))
        with (match separator_at (String c s +:+ "," +:+ q2) with
              | Some n => EmptyString :: split_go (Nat.pred n) (s +:+ "," +:+ q2)
              | None => push_char c (split_go 0 (s +:+ "," +:+ q2))
              end).
      rewrite separator_at_app_comma.
      change (split_go 0 (String c s))
        with (match separator_at (String c s) with
              | Some n => EmptyString :: split_go (Nat.pred n) s
              | None => push_char c (split_go 0 s)
              end).
      destruct (separator_at (String c s)) as [n|] eqn:E.
      * apply separator_at_length in E. simpl in E.
        rewrite IH by lia. done.
      * rewrite IH by lia.
        pose proof (split_go_nonempty s 0) as Hne.
        by destruct (split_go 0 s).
    + change (split_go (S k) (String c s +:+ "," +:+ q2))
        with (split_go k (s +:+ "," +:+ q2)).
      simpl in Hk. rewrite IH by lia. done.
Qed.

(** X10: a comma cuts the phrase in two phrases that are segmented on their
    own: the items of [q1,q2] are the items of [q1] followed by the items
    of [q2], whatever [q1] and [q2] are. *)
Theorem parseItems_comma (q1 q2 : string) :
  parseItems (q1 +:+ "," +:+ q2) = parseItems q1 ++ parseItems q2.
Proof.
  unfold parseItems, fragments, split_query.
  rewrite split_go_app_comma by lia.
  by rewrite List.map_app, List.filter_app, List.map_app.
Qed.

Lemma split_go_no_comma s : ∀ k f, In f (split_go k s) → occurs "," f = false.
Proof.
  induction s as [|c s IH]; intros k f.
  - simpl. by intros [<-|[]].
  - destruct k as [|k]; [|exact (IH k f)].
    change (split_go 0 (String c s))
      with (match separator_at (String c s) with
            | Some n => EmptyString :: split_go (Nat.pred n) s
            | None => push_char c (split_go 0 s)
            end).
    destruct (separator_at (String c s)) as [n|] eqn:E.
    + intros [<-|Hin]; [done|]. by eapply IH.
    + apply separator_at_not_comma in E.
      pose proof (IH 0%nat) as IH0.
      destruct (split_go 0 s) as [|p ps]; simpl.
      * intros [<-|[]]. simpl. rewrite orb_false_r. by apply Ascii.eqb_neq.
      * intros [<-|Hin]; [|apply IH0; by right]. simpl.
        rewrite (IH0 p) by (by left). rewrite orb_false_r. by apply Ascii.eqb_neq.
Qed.

Lemma occurs_drop_ws c s : occurs c s = false → occurs c (drop_ws s) = false.
Proof.
  induction s as [|a s IH]; simpl; [done|].
  intros [Ha Hs]%orb_false_elim. destruct (is_ws a); [by apply IH|].
  simpl. by rewrite Ha, Hs.
Qed.

Lemma occurs_trim_end c s : occurs c s = false → occurs c (trim_end s) = false.
Proof.
  induction s as [|a s IH]; simpl; [done|].
  intros [Ha Hs]%orb_false_elim. specialize (IH Hs).
  destruct (trim_end s) as [|b t].
  - destruct (is_ws a); simpl; [done|]. by rewrite Ha.
  - simpl in *. by rewrite Ha, IH.
Qed.

Lemma occurs_take_line c s : occurs c s = false → occurs c (take_line s) = false.
Proof.
  induction s as [|a s IH]; simpl; [done|].
  intros [Ha Hs]%orb_false_elim. destruct (is_line_terminator a); simpl; [done|].
  by rewrite Ha, IH.
Qed.

Lemma occurs_span_digits c s d r :
  span_digits s = (d, r) → occurs c s = false → occurs c r = false.
Proof.
  revert d r. induction s as [|a s IH]; simpl; intros d r H.
  - by injection H as <- <-.
  - destruct (is_digit a).
    + destruct (span_digits s) as [d' r'] eqn:E. injection H as <- <-.
      intros [_ Hs]%orb_false_elim. by eapply IH.
    + by injection H as <- <-.
Qed.

(** What the third group captures: it starts with a character that is not
    white space, and has only characters of the string matched. *)
Lemma after_quantity_capture m1 rest m1' m3 :
  trim_end rest = rest → after_quantity m1 rest = Some (m1', m3) →
  (∃ c t, m3 = String c t ∧ is_ws c = false) ∧
  (∀ c, occurs c rest = false → occurs c m3 = false).
Proof.
  unfold after_quantity. intros Ht H.
  destruct (starts_with_ws rest) eqn:W; [|done]. injection H as _ <-.
  assert (rest ≠ "") as Hne by (by destruct rest).
  split; [|intros c Hc; by apply occurs_take_line, occurs_drop_ws].
  destruct (drop_ws rest) as [|a t] eqn:E.
  - by apply drop_ws_trimmed in E.
  - simpl. apply drop_ws_head in E.
    destruct (is_line_terminator a) eqn:L; [|by eauto].
    apply line_terminator_is_ws in L. congruence.
Qed.

Lemma match_quantity_capture part m1 m3 :
  trim_end part = part → match_quantity part = Some (m1, m3) →
  (∃ c t, m3 = String c t ∧ is_ws c = false) ∧
  (∀ c, occurs c part = false → occurs c m3 = false).
Proof.
  intros Ht. unfold match_quantity.
  destruct (span_digits part) as [d r] eqn:E.
  pose proof (span_digits_app _ _ _ E) as Hpart.
  destruct d as [|c0 d].
  - destruct part as [|a r0]; [done|].
    destruct (eqb_ci a "a"); [|done].
    destruct (after_quantity (String a "") r0) as [m|] eqn:A.
    + intros [= ->].
      assert (trim_end r0 = r0) as Hr0.
      { apply trim_end_tail in Ht; [done|]. by eapply after_quantity_rest. }
      destruct (after_quantity_capture _ _ _ _ Hr0 A) as [Hhead Hocc].
      split; [done|]. intros c [_ Hc]%orb_false_elim. by apply Hocc.
    + destruct r0 as [|n r2]; [done|].
      destruct (eqb_ci n "n"); [|done]. intros H.
      assert (trim_end r2 = r2) as Hr2.
      { apply trim_end_tail in Ht; [|done].
        apply trim_end_tail in Ht; [done|]. by eapply after_quantity_rest. }
      destruct (after_quantity_capture _ _ _ _ Hr2 H) as [Hhead Hocc].
      split; [done|]. intros c [_ [_ Hc]%orb_false_elim]%orb_false_elim. by apply Hocc.
  - assert (Hr : r ≠ "" → trim_end r = r).
    { apply (trim_end_suffix (String c0 d)). congruence. }
    assert (Hor : ∀ c, occurs c part = false → occurs c r = false).
    { intros c. by apply (occurs_span_digits c part (String c0 d) r). }
    destruct r as [|a r']; [done|].
    specialize (Hr ltac:(done)).
    destruct (Ascii.eqb_spec a ".") as [->|Hdot].
    + destruct (span_digits r') as [d2 r2] eqn:E2.
      pose proof (span_digits_app _ _ _ E2) as Hr'.
      destruct d2 as [|c2 d2]; [done|]. intros A.
      assert (trim_end r2 = r2) as Hr2.
      { apply (trim_end_suffix (String c2 d2)); [|by eapply after_quantity_rest].
        rewrite <- Hr'. apply trim_end_tail in Hr; [done|]. by rewrite Hr'. }
      destruct (after_quantity_capture _ _ _ _ Hr2 A) as [Hhead Hocc].
      split; [done|]. intros c Hc. apply Hocc.
      apply Hor in Hc. simpl in Hc. apply orb_false_elim in Hc as [_ Hc].
      by apply (occurs_span_digits c r' (String c2 d2) r2).
    + intros A.
      assert (after_quantity (String c0 d) (String a r') = Some (m1, m3)) as A'.
      { revert A. clear -Hdot. destruct a as [[] [] [] [] [] [] [] []]; try done. }
      destruct (after_quantity_capture _ _ _ _ Hr A') as [Hhead Hocc].
      split; [done|]. intros c Hc. by apply Hocc, Hor.
Qed.

Lemma trim_head f : trim f ≠ "" → ∃ c t, trim f = String c t ∧ is_ws c = false.
Proof.
  unfold trim. intros Hne.
  destruct (drop_ws f) as [|c t] eqn:E; [done|].
  apply drop_ws_head in E. simpl in *.
  destruct (trim_end t); [|by eauto].
  rewrite E in *. by eauto.
Qed.

(** X11: the text of an item never contains a comma and never starts with
    white space: what is sent upstream as the query of an item starts with
    a visible character. *)
Theorem parseItems_text (query : string) (item : ItemDescriptor) :
  In item (parseItems query) →
  occurs "," (text item) = false ∧
  ∃ c t, text item = String c t ∧ is_ws c = false.
Proof.
  unfold parseItems. intros (part & <- & Hin)%in_map_iff.
  destruct (fragments_trimmed _ _ Hin) as [Hne Ht].
  apply fragments_spec in Hin as [_ (f & Hf & ->)].
  assert (occurs "," (trim f) = false) as Hcomma.
  { unfold trim. apply occurs_trim_end, occurs_drop_ws.
    by eapply split_go_no_comma. }
  unfold parse_part.
  destruct (match_quantity (trim f)) as [[m1 m3]|] eqn:M; simpl.
  - destruct (match_quantity_capture _ _ _ Ht M) as [Hhead Hocc].
    split; [by apply Hocc | done].
  - split; [done | by apply trim_head].
Qed.

Lemma parseItems_text_witness :
  occurs "," "banana" = false ∧ ∃ c t, "banana" = String c t ∧ is_ws c = false.
Proof.
  apply (parseItems_text "2 eggs and a banana" (mkItem 1 "banana")).
  vm_compute. right. left. reflexivity.
Defined.

(** ** The Segmenter: reading a quantity *)

Lemma span_digits_all d r :
  all_digits d = true →
  (∀ c r', r = String c r' → is_digit c = false) →
  span_digits (d +:+ r) = (d, r).
Proof.
  intros Hd Hr. induction d as [|c d IH].
  - change ("" +:+ r) with r. destruct r as [|c r']; [done|].
    simpl. by rewrite (Hr c r').
  - simpl in Hd. apply andb_prop in Hd as [Hc Hd].
    change (String c d +:+ r) with (String c (d +:+ r)). simpl.
    by rewrite Hc, IH.
Qed.

Lemma span_digits_only d : all_digits d = true → span_digits d = (d, "").
Proof.
  induction d as [|c d IH]; simpl; [done|].
  intros [Hc Hd]%andb_prop. by rewrite Hc, IH.
Qed.

Lemma take_line_plain t :
  occurs "010" t = false → occurs "013" t = false → take_line t = t.
Proof.
  induction t as [|c t IH]; simpl; [done|].
  intros [Hc1 H1]%orb_false_elim [Hc2 H2]%orb_false_elim.
  assert (is_line_terminator c = false) as ->.
  { apply Ascii.eqb_neq in Hc1, Hc2. clear -Hc1 Hc2.
    destruct c as [[] [] [] [] [] [] [] []]; try done. }
  by rewrite IH.
Qed.

Lemma after_quantity_plain m1 t :
  plain_text t → after_quantity m1 (String " " t) = Some (m1, t).
Proof.
  intros [(c & t' & -> & Hc) [H1 H2]]. unfold after_quantity. simpl starts_with_ws.
  cbv iota. f_equal. f_equal.
  change (drop_ws (String " " (String c t'))) with (drop_ws (String c t')).
  simpl drop_ws. rewrite Hc. by apply take_line_plain.
Qed.

Lemma numeral_not_article c s :
  is_digit c = true →
  String.eqb (string_to_lower (String c s)) "a" || String.eqb (string_to_lower (String c s)) "an"
  = false.
Proof.
  intros Hc. unfold string_to_lower. simpl.
  destruct c as [[] [] [] [] [] [] [] []]; try discriminate Hc; reflexivity.
Qed.

(** X12: a fragment made of a run of digits that write, in base ten, an
    integer of at most 2^53 (which a double holds exactly), one space and
    a plain text is read as this integer and that text. *)
Theorem parse_part_numeral (d1 t : string) :
  d1 ≠ "" → all_digits d1 = true →
  (digits_value 0 d1 ≤ 2 ^ 53)%Z →
  plain_text t →
  parse_part (d1 +:+ " " +:+ t) = mkItem (inject_Z (digits_value 0 d1)) t.
Proof.
  intros Hne1 Hd1 _ Ht.
  assert (∀ c s, d1 = String c s → is_digit c = true) as Hhead.
  { intros c s ->. simpl in Hd1. by apply andb_prop in Hd1 as [? _]. }
  unfold parse_part, match_quantity.
  rewrite span_digits_all; [|done|intros c r' [= <- _]; reflexivity].
  destruct d1 as [|c d]; [done|].
  change (" " +:+ t) with (String " " t).
  rewrite after_quantity_plain by done.
  rewrite (numeral_not_article c d) by (by eapply Hhead).
  unfold parseFloat. by rewrite (span_digits_only (String c d)).
Qed.

Lemma parse_part_numeral_witness :
  parse_part "12 fried eggs" = mkItem 12 "fried eggs".
Proof.
  assert (plain_text "fried eggs") as H1.
  { split; [by exists "f"%char, "ried eggs"|split; reflexivity]. }
  exact (parse_part_numeral "12" "fried eggs"
           ltac:(discriminate) eq_refl ltac:(by vm_compute) H1).
Defined.

Lemma eqb_ci_a c : eqb_ci c "a" = true → c = "a"%char ∨ c = "A"%char.
Proof.
  unfold eqb_ci. intros H%Ascii.eqb_eq. revert H.
  destruct c as [[] [] [] [] [] [] [] []]; vm_compute; intros H;
    try discriminate H; auto.
Qed.

Lemma eqb_ci_n c : eqb_ci c "n" = true → c = "n"%char ∨ c = "N"%char.
Proof.
  unfold eqb_ci. intros H%Ascii.eqb_eq. revert H.
  destruct c as [[] [] [] [] [] [] [] []]; vm_compute; intros H;
    try discriminate H; auto.
Qed.

(** X13: a fragment made of the article "a" or "an", in either case, one
    space and a plain text is read as the quantity 1 and that text. *)
Theorem parse_part_article (a n : ascii) (t : string) :
  eqb_ci a "a" = true → eqb_ci n "n" = true → plain_text t →
  parse_part (String a (String " " t)) = mkItem 1 t ∧
  parse_part (String a (String n (String " " t))) = mkItem 1 t.
Proof.
  intros Ha Hn Ht.
  pose proof (after_quantity_plain (String a "") t Ht) as A1.
  pose proof (after_quantity_plain (String a (String n "")) t Ht) as A2.
  unfold parse_part, match_quantity.
  destruct (eqb_ci_a a Ha) as [->| ->], (eqb_ci_n n Hn) as [->| ->];
    cbn [span_digits is_digit]; cbv beta iota zeta;
    rewrite ?A1, ?A2; split; reflexivity.
Qed.

Lemma parse_part_article_witness :
  parse_part "A banana" = mkItem 1 "banana" ∧ parse_part "an apple" = mkItem 1 "apple".
Proof.
  split.
  - refine (proj1 (parse_part_article "A" "n" "banana" eq_refl eq_refl _)).
    split; [by exists "b"%char, "anana"|split; reflexivity].
  - refine (proj2 (parse_part_article "a" "n" "apple" eq_refl eq_refl _)).
    split; [by exists "a"%char, "pple"|split; reflexivity].
Defined.

(** * Properties of the web client *)

Section ClientFacts.

Import Client.

Implicit Types (a : App) (e : Env).

(** ** The day's totals *)








Lemma calculateTotals_meals a b : meals a = meals b → calculateTotals a = calculateTotals b.
Proof. unfold calculateTotals. by intros ->. Qed.

(** ** The history *)

Lemma saveToHistory_history e a :
  history (saveToHistory e a) =
  take 30 (match list_find (λ h, date h = today e) (history a) with
           | Some (existingIndex, _) =>
               <[existingIndex := mkDay (today e) (calculateTotals a) (goals a)]> (history a)
           | None => mkDay (today e) (calculateTotals a) (goals a) :: history a
           end).
Proof. reflexivity. Qed.

Lemma saveToHistory_find e a :
  (length (history a) ≤ 30)%nat →
  ∃ i, list_find (λ h, date h = today e) (history (saveToHistory e a)) =
       Some (i, mkDay (today e) (calculateTotals a) (goals a)) ∧
       (i < length (history (saveToHistory e a)) ≤ 30)%nat.
Proof.
  intros Hlen. rewrite saveToHistory_history.
  destruct (list_find _ (history a)) as [[i h0]|] eqn:F.
  - apply list_find_Some in F as (Hi & HP & Hmin).
    pose proof (lookup_lt_Some _ _ _ Hi) as Hlt.
    rewrite take_ge by (rewrite length_insert; lia).
    exists i. rewrite length_insert. split; [|lia].
    apply list_find_Some. split; [by apply list_lookup_insert_eq|].
    split; [done|]. intros j y Hj Hji.
    rewrite list_lookup_insert_ne in Hj by lia. by eapply Hmin.
  - exists 0%nat.
    change (take 30 (?x :: history a)) with (x :: take 29 (history a)).
    split; [|cbn [length]; rewrite length_take; lia].
    apply list_find_Some. split; [done|]. split; [done|]. intros j y _ Hj. lia.
Qed.






(** X16: with at most 30 entries in the history, saving to it a second
    time, nothing else having changed, changes nothing. *)
Theorem saveToHistory_twice e a :
  (length (history a) ≤ 30)%nat →
  saveToHistory e (saveToHistory e a) = saveToHistory e a.
Proof.
  intros Hlen. destruct (saveToHistory_find e a Hlen) as (i & Hfind & Hi).
  set (a' := saveToHistory e a) in *.
  unfold saveToHistory at 1. cbv zeta.
  change (calculateTotals a') with (calculateTotals a).
  change (goals a') with (goals a) at 1.
  rewrite Hfind.
  apply list_find_Some in Hfind as (Hlook & _).
  rewrite list_insert_id by done.
  rewrite take_ge by lia.
  subst a'. reflexivity.
Qed.

Lemma saveToHistory_twice_witness :
  saveToHistory morning (saveToHistory morning sample_app) = saveToHistory morning sample_app.
Proof. apply saveToHistory_twice. simpl. lia. Defined.

(** ** Logging and removing meals *)

Lemma addMeal_meals e a p :
  pendingMeal a = Some p →
  meals (addMeal e a) = meals a ++ [mkMeal p (now e) (Some (timeString e))].
Proof. intros H. unfold addMeal. by rewrite H. Qed.



Lemma filter_other_ids i (ms : list Meal) :
  Forall (λ m, id m ≠ i) ms → List.filter (λ m, negb (id m =? i)%Z) ms = ms.
Proof.
  induction 1 as [|m ms Hm _ IH]; simpl; [done|].
  apply Z.eqb_neq in Hm. by rewrite Hm, IH.
Qed.

Lemma removeMeal_meals e i a :
  meals (removeMeal e i a) = List.filter (λ m, negb (id m =? i)%Z) (meals a).
Proof. reflexivity. Qed.

(** X18: removing the meal just logged undoes the logging, as far as the
    meals and the totals go, provided no other meal of the day has the id
    the clock gave to it. *)
Theorem addMeal_removeMeal e e' a p :
  pendingMeal a = Some p →
  Forall (λ m, id m ≠ now e) (meals a) →
  meals (removeMeal e' (now e) (addMeal e a)) = meals a ∧
  calculateTotals (removeMeal e' (now e) (addMeal e a)) = calculateTotals a.
Proof.
  intros Hp Hids.
  assert (meals (removeMeal e' (now e) (addMeal e a)) = meals a) as Hm.
  { rewrite removeMeal_meals, (addMeal_meals e a p Hp), List.filter_app.
    rewrite filter_other_ids by done. simpl. rewrite Z.eqb_refl. simpl.
    by rewrite app_nil_r. }
  split; [done|]. by apply calculateTotals_meals.
Qed.

Lemma addMeal_removeMeal_witness :
  meals (removeMeal morning 1000 (addMeal morning sample_app)) = meals sample_app.
Proof.
  refine (proj1 (addMeal_removeMeal morning morning sample_app toast_meal eq_refl _)).
  repeat constructor. simpl. lia.
Defined.

(** X19: logging consumes the pending meal: afterwards there is none, and
    asking to log again, at whatever time, does nothing. *)
Theorem addMeal_once e e' a :
  pendingMeal (addMeal e a) = None ∧ addMeal e' (addMeal e a) = addMeal e a.
Proof.
  assert (pendingMeal (addMeal e a) = None) as H.
  { unfold addMeal. by destruct (pendingMeal a) eqn:E. }
  split; [done|]. unfold addMeal at 1. by rewrite H.
Qed.



(** ** What is stored, and the history, against the state *)

Lemma save_meals_and_history e a :
  (length (history a) ≤ 30)%nat →
  history_current e (saveToHistory e (saveTodayMeals e a)) ∧
  stored_current e (saveToHistory e (saveTodayMeals e a)).
Proof.
  intros Hlen. split.
  - destruct (saveToHistory_find e (saveTodayMeals e a) Hlen) as (i & Hfind & _).
    exists i. exact Hfind.
  - split; [|reflexivity].
    change (meals_on (saveToHistory e (saveTodayMeals e a)))
      with (<[today e := meals a]> (meals_on a)).
    by rewrite lookup_insert_eq.
Qed.

(** X21: with at most 30 entries in the history, after a meal is logged,
    removed, or added from the favorites, today's entry of the history
    holds the totals of the meals now in the state, and the store holds
    the meals, goals, favorites and history of the state. *)
Theorem meals_saved e a :
  (length (history a) ≤ 30)%nat →
  (∀ p, pendingMeal a = Some p →
        history_current e (addMeal e a) ∧ stored_current e (addMeal e a)) ∧
  (∀ i, history_current e (removeMeal e i a) ∧ stored_current e (removeMeal e i a)) ∧
  (∀ i fav, List.find (λ f, (id f =? i)%Z) (favorites a) = Some fav →
            history_current e (addFavoriteToMeals e i a) ∧
            stored_current e (addFavoriteToMeals e i a)).
Proof.
  intros Hlen. split; [|split].
  - intros p Hp. unfold addMeal. rewrite Hp.
    exact (save_meals_and_history e
             (set_meals (meals a ++ [mkMeal p (now e) (Some (timeString e))]) a) Hlen).
  - intros i.
    exact (save_meals_and_history e
             (set_meals (List.filter (λ m, negb (id m =? i)%Z) (meals a)) a) Hlen).
  - intros i fav Hfav. unfold addFavoriteToMeals. rewrite Hfav.
    exact (save_meals_and_history e
             (set_meals (meals a ++ [mkMeal (item fav) (now e) (Some (timeString e))]) a)
             Hlen).
Qed.

Lemma meals_saved_witness :
  history_current morning (addMeal morning sample_app) ∧
  stored_current morning (addMeal morning sample_app).
Proof.
  refine (proj1 (meals_saved morning sample_app _) toast_meal eq_refl).
  simpl. lia.
Defined.

(** X22: clearing the day's meals empties the meals of the state and of
    the store but leaves the history as it is: when today's entry held the
    totals of the meals and these were not all zero, it no longer holds the
    totals of the state. *)
Theorem clearMeals_history e a :
  history_current e a →
  calculateTotals a ≠ quad_zero →
  let a' := clearMeals e true a in
  meals a' = [] ∧
  meals_on a' !! today e = Some [] ∧
  history a' = history a ∧
  ¬ history_current e a'.
Proof.
  intros [i Hi] Hnz. cbv zeta.
  split; [done|]. split; [apply lookup_insert_eq|]. split; [done|].
  intros [j Hj].
  change (history (clearMeals e true a)) with (history a) in Hj.
  rewrite Hi in Hj. injection Hj as _ Htot. by apply Hnz.
Qed.

Lemma clearMeals_history_witness :
  let a := addMeal morning sample_app in
  meals (clearMeals morning true a) = [] ∧
  ¬ history_current morning (clearMeals morning true a).
Proof.
  cbv zeta.
  destruct (clearMeals_history morning (addMeal morning sample_app)) as (Hm & _ & _ & Hh).
  - exists 0%nat. reflexivity.
  - discriminate.
  - split; [exact Hm | exact Hh].
Defined.

(** ** The favorites *)





(** ** Looking a meal up *)



End ClientFacts.
